(** * vold uevent handling: a shallow embedding of [vold/uevent.c] and
    [vold/ums.c], and the properties of its parser and subsystem handlers. *)

From Stdlib Require Import ZArith List String Ascii Bool Lia.
Import ListNotations.

Local Open Scope string_scope.
Local Open Scope Z_scope.

(** ** C strings *)

(** A [char *] as the code passes it around: the null pointer, a pointer to
    a NUL-terminated string (its characters, terminator excluded), or a
    pointer beyond the terminator of the string it was computed from. *)
Inductive cstr : Type :=
| NULL
| Str (s : string)
| PastEnd.

Definition NUL : ascii := Ascii.zero.

(** [!strcmp(a, b)] on two valid strings. *)
Definition streq (a b : string) : bool := String.eqb a b.

(** [!strncmp(s, lit, strlen(lit))]: [s] starts with [lit]. *)
Definition starts_with (lit s : string) : bool := String.prefix lit s.

(** [&s[n]] for a heap copy of [s]: indices [0 .. strlen(s)] are inside the
    allocation (index [strlen(s)] holds the terminator), larger ones are not. *)
Fixpoint offset (n : nat) (s : string) : cstr :=
  match n with
  | O => Str s
  | S n' =>
      match s with
      | EmptyString => PastEnd
      | String _ r => offset n' r
      end
  end.

Definition isspace (c : ascii) : bool :=
  let n := nat_of_ascii c in
  (Nat.eqb n 32 || (Nat.leb 9 n && Nat.leb n 13))%bool.

Definition isdigit (c : ascii) : bool :=
  let n := nat_of_ascii c in (Nat.leb 48 n && Nat.leb n 57)%bool.

Fixpoint skip_spaces (s : string) : string :=
  match s with
  | String c r => if isspace c then skip_spaces r else s
  | EmptyString => s
  end.

Fixpoint digits (s : string) (acc : Z) : Z :=
  match s with
  | String c r =>
      if isdigit c
      then digits r (10 * acc + (Z.of_nat (nat_of_ascii c) - 48))
      else acc
  | EmptyString => acc
  end.

(** Two's-complement [int] (32 bits). *)
Definition to_int (z : Z) : Z :=
  (z + 2147483648) mod 4294967296 - 2147483648.

(** [unsigned int] (32 bits). *)
Definition to_uint (z : Z) : Z := z mod 4294967296.

(** [atoi]: leading white space, an optional sign, then decimal digits up to
    the first other character.  C leaves the result undefined when the value
    does not fit an [int]; here it wraps. *)
Definition atoi (s : string) : Z :=
  match skip_spaces s with
  | String "-" r => to_int (- digits r 0)
  | String "+" r => to_int (digits r 0)
  | r => to_int (digits r 0)
  end.

(** ** The event structure *)

Definition UEVENT_PARAMS_MAX : nat := 32.

Inductive uevent_action : Type := action_add | action_remove | action_change.

(** [struct uevent].  [param] is the array [char *param[UEVENT_PARAMS_MAX]]:
    a slot is [None] while it holds the null pointer. *)
Record uevent : Type := mk_uevent {
  path : cstr;
  action : uevent_action;
  subsystem : cstr;
  param : list (option string);
  seqnum : Z
}.

(** [memset(event, 0, sizeof(struct uevent))]. *)
Definition zero_uevent : uevent :=
  {| path := NULL;
     action := action_add;
     subsystem := NULL;
     param := repeat None UEVENT_PARAMS_MAX;
     seqnum := 0 |}.

Definition set_path (e : uevent) (p : cstr) : uevent :=
  {| path := p; action := action e; subsystem := subsystem e;
     param := param e; seqnum := seqnum e |}.

Definition set_action (e : uevent) (a : uevent_action) : uevent :=
  {| path := path e; action := a; subsystem := subsystem e;
     param := param e; seqnum := seqnum e |}.

Definition set_subsystem (e : uevent) (s : cstr) : uevent :=
  {| path := path e; action := action e; subsystem := s;
     param := param e; seqnum := seqnum e |}.

Definition set_seqnum (e : uevent) (n : Z) : uevent :=
  {| path := path e; action := action e; subsystem := subsystem e;
     param := param e; seqnum := n |}.

Definition set_param (e : uevent) (ps : list (option string)) : uevent :=
  {| path := path e; action := action e; subsystem := subsystem e;
     param := ps; seqnum := seqnum e |}.

(** [a[i] = v] for [i] inside the array. *)
Fixpoint store {A : Type} (i : nat) (v : A) (a : list A) : list A :=
  match a, i with
  | [], _ => []
  | _ :: r, O => v :: r
  | x :: r, S i' => x :: store i' v r
  end.

(** The strings held by the array, as every reader of it walks them:
    [for (i = 0; i < UEVENT_PARAMS_MAX; i++) { if (!param[i]) break; ... }]. *)
Fixpoint until_null (slots : list (option string)) : list string :=
  match slots with
  | Some p :: r => p :: until_null r
  | _ => []
  end.

Definition params (e : uevent) : list string :=
  until_null (firstn UEVENT_PARAMS_MAX (param e)).

(** ** The parser of [process_uevent_message] *)

(** The received bytes are a [string] (which may hold NUL characters) and a
    pointer into the buffer is the suffix that starts at it: the empty
    suffix is [end = buffer + count].  Reading through a pointer that has
    reached [end] is a read beyond the [count] bytes that were received. *)

(** The C string a pointer designates, and the pointer just after its
    terminator; [None] when no terminator lies before [end]. *)
Fixpoint cstring (s : string) : option (string * string) :=
  match s with
  | EmptyString => None
  | String c r =>
      if Ascii.eqb c NUL then Some (EmptyString, r)
      else match cstring r with
           | Some (h, t) => Some (String c h, t)
           | None => None
           end
  end.

(** [for (p = s; *p != '@'; p++); p++;] yields [p]; [None] when the scan
    runs into [end]. *)
Fixpoint scan_at (s : string) : option string :=
  match s with
  | EmptyString => None
  | String c r => if Ascii.eqb c "@" then Some r else scan_at r
  end.

(** How the loop over the buffer ends. *)
Inductive parsed : Type :=
| Parsed (event : uevent)
| ReadPastEnd
| WritePastParams.

(** The [else] branch of the loop body, for the string [str] at [s]:
    [None] when [param[param_idx++] = strdup(s)] is executed with
    [param_idx >= UEVENT_PARAMS_MAX]. *)
Definition parse_field (str : string) (event : uevent) (param_idx : nat)
  : option (uevent * nat) :=
  if starts_with "ACTION=" str then
    match offset 7 str with
    | Str a =>
        if streq a "add" then Some (set_action event action_add, param_idx)
        else if streq a "change" then Some (set_action event action_change, param_idx)
        else if streq a "remove" then Some (set_action event action_remove, param_idx)
        else Some (event, param_idx)
    | _ => Some (event, param_idx)
    end
  else if starts_with "SEQNUM=" str then
    match offset 7 str with
    | Str n => Some (set_seqnum event (to_uint (atoi n)), param_idx)
    | _ => Some (event, param_idx)
    end
  else if starts_with "SUBSYSTEM=" str then
    Some (set_subsystem event (offset 10 str), param_idx)
  else if (param_idx <? UEVENT_PARAMS_MAX)%nat then
    Some (set_param event (store param_idx (Some str) (param event)), S param_idx)
  else None.

(** [while (s < end) { ... s += strlen(s) + 1; }] *)
Fixpoint parse_loop (fuel : nat) (s : string) (first : bool)
    (event : uevent) (param_idx : nat) : option parsed :=
  match s with
  | EmptyString => Some (Parsed event)
  | String _ _ =>
      match fuel with
      | O => None
      | S fuel' =>
          if first then
            match scan_at s with
            | None => Some ReadPastEnd
            | Some p =>
                match cstring p with
                | None => Some ReadPastEnd
                | Some (dup, _) =>
                    match cstring s with
                    | None => Some ReadPastEnd
                    | Some (_, s') =>
                        parse_loop fuel' s' false (set_path event (Str dup)) param_idx
                    end
                end
            end
          else
            match cstring s with
            | None => Some ReadPastEnd
            | Some (str, s') =>
                match parse_field str event param_idx with
                | None => Some WritePastParams
                | Some (event', param_idx') =>
                    parse_loop fuel' s' false event' param_idx'
                end
            end
      end
  end.

(** Lines 96-124 of [process_uevent_message] on the [count] bytes that
    [recv] stored in [buffer]. *)
Definition parse_uevent (buffer : string) : option parsed :=
  parse_loop (String.length buffer) buffer true zero_uevent 0.

(** A message as the kernel lays it out: each string followed by NUL. *)
Fixpoint message (strings : list string) : string :=
  match strings with
  | [] => EmptyString
  | x :: r => x ++ String NUL (message r)
  end.

Definition example_message : string :=
  message ["X@/devices/foo"; "ACTION=add"; "SEQNUM=5"; "SUBSYSTEM=block";
           "DEVTYPE=disk"; "MAJOR=8"; "MINOR=0"].

(** [simulate_uevent]'s copy of its NULL-terminated [params] argument:
    [for (i = 0; i < UEVENT_PARAMS_MAX; i++) { if (!params[i]) break;
    event->param[i] = strdup(params[i]); }]. *)
Definition copy_params (ps : list string) : list (option string) :=
  let kept := firstn UEVENT_PARAMS_MAX ps in
  map Some kept ++ repeat None (UEVENT_PARAMS_MAX - List.length kept).

(** [get_uevent_param]: the first non-null slot that starts with
    [param_name], at offset [strlen(param_name) + 1]; [NULL] when the walk
    ends without one. *)
Fixpoint get_param_from (slots : list (option string)) (param_name : string) : cstr :=
  match slots with
  | Some p :: rest =>
      if starts_with param_name p
      then offset (String.length param_name + 1) p
      else get_param_from rest param_name
  | _ => NULL
  end.

Definition get_uevent_param (event : uevent) (param_name : string) : cstr :=
  get_param_from (firstn UEVENT_PARAMS_MAX (param event)) param_name.

Arguments get_uevent_param : simpl never.
Arguments atoi : simpl never.

(** ** The collaborators *)

(** Messages of [vold.h] passed to [send_msg]. *)
Inductive vold_evt : Type :=
| VOLD_EVT_UMS_ENABLED
| VOLD_EVT_UMS_DISABLED
| VOLD_EVT_UMS_CONNECTED
| VOLD_EVT_UMS_DISCONNECTED.

(** The completion handed to [volmgr_notify_eject]. *)
Inductive callback : Type := cb_blkdev_ok_to_destroy.

(** The functions of [blkdev.h], [media.h], [volmgr.h] and [vold.h] that
    [uevent.c] and [ums.c] call.  Their code is outside these two files, so
    they are parameters: [world] is whatever state they keep, [blkdev_t] and
    [media_t] are the pointers they hand out.  Lookups read the world, the
    others may change it. *)
Class Collaborators : Type := {
  world : Type;
  blkdev_t : Type;
  media_t : Type;
  truncate_sysfs_path : cstr -> Z -> string;
  read_sysfs_var : cstr -> string -> world -> string;
  blkdev_lookup_by_devno : Z -> Z -> world -> option blkdev_t;
  blkdev_devpath_set : blkdev_t -> cstr -> world -> world;
  blkdev_create :
    option blkdev_t -> cstr -> Z -> Z -> media_t -> cstr -> world ->
    option blkdev_t * world;
  blkdev_get_num_pending_partitions : blkdev_t -> world -> Z;
  blkdev_destroy : blkdev_t -> world -> world;
  blkdev_disk : blkdev_t -> world -> blkdev_t;
  media_lookup_by_path : cstr -> bool -> world -> option media_t;
  media_lookup_by_dev : blkdev_t -> world -> option media_t;
  media_add_blkdev : media_t -> blkdev_t -> world -> Z * world;
  media_remove_blkdev : media_t -> blkdev_t -> world -> world;
  media_create : cstr -> cstr -> string -> world -> option media_t * world;
  media_destroy : media_t -> world -> world;
  volmgr_consider_disk : blkdev_t -> world -> Z * world;
  volmgr_notify_eject : blkdev_t -> callback -> world -> Z * world;
  send_msg : vold_evt -> world -> Z * world
}.

Definition EINVAL : Z := 22.

(** How a statement ends: it falls through with a value, executes
    [return rc], or dereferences a pointer that is [NULL] or [PastEnd]. *)
Inductive res (A : Type) : Type :=
| Val (a : A)
| Return (rc : Z)
| Fault.

Arguments Val {A} a.
Arguments Return {A} rc.
Arguments Fault {A}.

Section Monad.

Context {C : Collaborators}.

(** One call made by the code of [uevent.c] or [ums.c] into a collaborator,
    with its arguments and what it returned. *)
Inductive call : Type :=
| Truncate_sysfs_path (p : cstr) (n : Z) (out : string)
| Read_sysfs_var (p : cstr) (var : string) (out : string)
| Blkdev_lookup_by_devno (maj min : Z) (r : option blkdev_t)
| Blkdev_devpath_set (dev : blkdev_t) (p : cstr)
| Blkdev_create (disk : option blkdev_t) (p : cstr) (maj min : Z)
    (media : media_t) (type : cstr) (r : option blkdev_t)
| Blkdev_get_num_pending_partitions (disk : blkdev_t) (r : Z)
| Blkdev_destroy (dev : blkdev_t)
| Media_lookup_by_path (p : cstr) (fuzzy : bool) (r : option media_t)
| Media_lookup_by_dev (dev : blkdev_t) (r : option media_t)
| Media_add_blkdev (media : media_t) (dev : blkdev_t) (rc : Z)
| Media_remove_blkdev (media : media_t) (dev : blkdev_t)
| Media_create (p : cstr) (name : cstr) (serial : string) (r : option media_t)
| Media_destroy (media : media_t)
| Volmgr_consider_disk (disk : blkdev_t) (rc : Z)
| Volmgr_notify_eject (dev : blkdev_t) (cb : callback) (rc : Z)
| Send_msg (msg : vold_evt) (rc : Z).

(** The state the two files run in: the two static flags of [ums.c], the
    collaborators' world, and the calls made so far, oldest first. *)
Record state : Type := mk_state {
  host_connected : bool;
  ums_enabled : bool;
  ext : world;
  calls : list call
}.

Definition M (A : Type) : Type := state -> res A * state.

Definition ret {A : Type} (a : A) : M A := fun st => (Val a, st).

Definition bind {A B : Type} (m : M A) (k : A -> M B) : M B :=
  fun st =>
    match m st with
    | (Val a, st') => k a st'
    | (Return rc, st') => (Return rc, st')
    | (Fault, st') => (Fault, st')
    end.

Definition return_ {A : Type} (rc : Z) : M A := fun st => (Return rc, st).

(** A function body: [return rc] anywhere inside is the function's value. *)
Definition fn (body : M Z) : M Z :=
  fun st =>
    match body st with
    | (Return rc, st') => (Val rc, st')
    | r => r
    end.

(** Reading the string behind a [char *]. *)
Definition deref (p : cstr) : M string :=
  fun st =>
    match p with
    | Str s => (Val s, st)
    | _ => (Fault, st)
    end.

Definition log (c : call) (st : state) : state :=
  {| host_connected := host_connected st; ums_enabled := ums_enabled st;
     ext := ext st; calls := calls st ++ [c] |}.

Definition set_ext (w : world) (st : state) : state :=
  {| host_connected := host_connected st; ums_enabled := ums_enabled st;
     ext := w; calls := calls st |}.

(** A collaborator call that only reads the world. *)
Definition query {A : Type} (f : world -> A) (c : A -> call) : M A :=
  fun st => let r := f (ext st) in (Val r, log (c r) st).

(** A collaborator call that may change the world. *)
Definition command {A : Type} (f : world -> A * world) (c : A -> call) : M A :=
  fun st => let '(r, w) := f (ext st) in (Val r, log (c r) (set_ext w st)).

Definition command_ (f : world -> world) (c : call) : M unit :=
  fun st => (Val tt, log c (set_ext (f (ext st)) st)).

End Monad.

Declare Scope vold_scope.
Delimit Scope vold_scope with vold.
Notation "x <- m ;; k" := (bind m (fun x => k))
  (at level 100, m at next level, right associativity) : vold_scope.
Notation "m ;;; k" := (bind m (fun _ => k))
  (at level 100, right associativity) : vold_scope.

Local Open Scope vold_scope.

Section Code.

Context {C : Collaborators}.

(** ** [ums.c] *)

Definition set_ums_enabled (b : bool) (st : state) : state :=
  {| host_connected := host_connected st; ums_enabled := b;
     ext := ext st; calls := calls st |}.

Definition set_host_connected (b : bool) (st : state) : state :=
  {| host_connected := b; ums_enabled := ums_enabled st;
     ext := ext st; calls := calls st |}.

Definition ums_enabled_set (enabled : bool) : M unit :=
  (fun st => (Val tt, set_ums_enabled enabled st)) ;;;
  _ <- command (send_msg (if enabled then VOLD_EVT_UMS_ENABLED
                          else VOLD_EVT_UMS_DISABLED))
               (Send_msg (if enabled then VOLD_EVT_UMS_ENABLED
                          else VOLD_EVT_UMS_DISABLED)) ;;
  ret tt.

Definition ums_enabled_get : M bool := fun st => (Val (ums_enabled st), st).

Definition ums_hostconnected_set (connected : bool) : M unit :=
  (fun st => (Val tt, set_host_connected connected st)) ;;;
  (if negb connected then ums_enabled_set false else ret tt) ;;;
  _ <- command (send_msg (if connected then VOLD_EVT_UMS_CONNECTED
                          else VOLD_EVT_UMS_DISCONNECTED))
               (Send_msg (if connected then VOLD_EVT_UMS_CONNECTED
                          else VOLD_EVT_UMS_DISCONNECTED)) ;;
  ret tt.

Definition ums_hostconnected_get : M bool :=
  fun st => (Val (host_connected st), st).

(** ** [uevent.c]: the handlers

    [LOG_VOL], [LOGE] and [dump_uevent] only print and are left out. *)

Definition handle_powersupply_event (event : uevent) : M Z := fn (ret 0).

Definition handle_battery_event (event : uevent) : M Z := fn (ret 0).

Definition handle_bdi_event (event : uevent) : M Z := fn (ret 0).

Definition handle_switch_event (event : uevent) : M Z := fn (
  let name := get_uevent_param event "SWITCH_NAME" in
  let state := get_uevent_param event "SWITCH_STATE" in
  name' <- deref name ;;
  (if streq name' "usb_mass_storage" then
     state' <- deref state ;;
     if streq state' "online" then ums_hostconnected_set true
     else ums_hostconnected_set false
   else ret tt) ;;;
  ret 0).

(** The [action_add] branch of [handle_block_event].  The [LOG_VOL] ahead
    of the test on the pending partitions prints the same count; it is left
    out with the other diagnostics. *)
Definition block_add (event : uevent) (media : media_t) (maj min : Z) : M Z :=
  disk <- query (blkdev_lookup_by_devno maj 0) (Blkdev_lookup_by_devno maj 0) ;;
  found <- query (blkdev_lookup_by_devno maj min) (Blkdev_lookup_by_devno maj min) ;;
  bp <- match found with
        | Some blkdev =>
            command_ (blkdev_devpath_set blkdev (path event))
                     (Blkdev_devpath_set blkdev (path event)) ;;;
            ret (blkdev, true)
        | None =>
            let type := get_uevent_param event "DEVTYPE" in
            created <- command (blkdev_create disk (path event) maj min media type)
                               (Blkdev_create disk (path event) maj min media type) ;;
            match created with
            | None => return_ (-1)
            | Some blkdev => ret (blkdev, false)
            end
        end ;;
  let '(blkdev, pending) := bp in
  rc <- command (media_add_blkdev media blkdev) (Media_add_blkdev media blkdev) ;;
  if rc <? 0 then return_ rc
  else if pending : bool then
    disk' <- (fun st => (Val (blkdev_disk blkdev (ext st)), st)) ;;
    n <- query (blkdev_get_num_pending_partitions disk')
               (Blkdev_get_num_pending_partitions disk') ;;
    if n =? 0 then
      rc' <- command (volmgr_consider_disk disk') (Volmgr_consider_disk disk') ;;
      if rc' <? 0 then return_ rc' else ret 0
    else ret 0
  else ret 0.

(** The [action_remove] branch of [handle_block_event]. *)
Definition block_remove (event : uevent) (maj min : Z) : M Z :=
  found <- query (blkdev_lookup_by_devno maj min) (Blkdev_lookup_by_devno maj min) ;;
  match found with
  | None => return_ 0
  | Some blkdev =>
      _ <- command (volmgr_notify_eject blkdev cb_blkdev_ok_to_destroy)
                   (Volmgr_notify_eject blkdev cb_blkdev_ok_to_destroy) ;;
      ret 0
  end.

Definition handle_block_event (event : uevent) : M Z := fn (
  devtype <- deref (get_uevent_param event "DEVTYPE") ;;
  n <- (if streq devtype "disk" then ret 2
        else
          devtype' <- deref (get_uevent_param event "DEVTYPE") ;;
          if streq devtype' "partition" then ret 3
          else return_ (- EINVAL)) ;;
  mediapath <- (fun st =>
                  let out := truncate_sysfs_path (path event) n in
                  (Val out, log (Truncate_sysfs_path (path event) n out) st)) ;;
  media <- query (media_lookup_by_path (Str mediapath) false)
                 (Media_lookup_by_path (Str mediapath) false) ;;
  match media with
  | None => return_ 0
  | Some media =>
      major <- deref (get_uevent_param event "MAJOR") ;;
      minor <- deref (get_uevent_param event "MINOR") ;;
      let maj := atoi major in
      let min := atoi minor in
      match action event with
      | action_add => block_add event media maj min
      | action_remove => block_remove event maj min
      | action_change => ret 0
      end ;;;
      ret 0
  end).

Definition _cb_blkdev_ok_to_destroy (dev : blkdev_t) : M unit :=
  media <- query (media_lookup_by_dev dev) (Media_lookup_by_dev dev) ;;
  match media with
  | Some media =>
      command_ (media_remove_blkdev media dev) (Media_remove_blkdev media dev)
  | None => ret tt
  end ;;;
  command_ (blkdev_destroy dev) (Blkdev_destroy dev).

Definition handle_mmc_event (event : uevent) : M Z := fn (
  match action event with
  | action_add =>
      type <- deref (get_uevent_param event "MMC_TYPE") ;;
      if (negb (streq type "SD") && negb (streq type "MMC"))%bool
      then return_ 0
      else
        serial <- query (read_sysfs_var (path event) "serial")
                        (Read_sysfs_var (path event) "serial") ;;
        let name := get_uevent_param event "MMC_NAME" in
        media <- command (media_create (path event) name serial)
                         (Media_create (path event) name serial) ;;
        match media with
        | None => return_ (-1)
        | Some _ => ret 0
        end
  | action_remove =>
      media <- query (media_lookup_by_path (path event) false)
                     (Media_lookup_by_path (path event) false) ;;
      match media with
      | None => return_ (-1)
      | Some media =>
          command_ (media_destroy media) (Media_destroy media) ;;;
          ret 0
      end
  | action_change => ret 0
  end ;;;
  ret 0).

(** ** [uevent.c]: dispatch *)

Definition dispatch_table : list (string * (uevent -> M Z)) :=
  [ ("switch", handle_switch_event);
    ("battery", handle_battery_event);
    ("mmc", handle_mmc_event);
    ("block", handle_block_event);
    ("bdi", handle_bdi_event);
    ("power_supply", handle_powersupply_event) ].

Fixpoint dispatch_from (table : list (string * (uevent -> M Z)))
    (event : uevent) : M Z :=
  match table with
  | [] => ret 0
  | (name, dispatch) :: rest =>
      sub <- deref (subsystem event) ;;
      if streq name sub then v <- dispatch event ;; return_ v
      else dispatch_from rest event
  end.

Definition dispatch_uevent (event : uevent) : M Z :=
  fn (dispatch_from dispatch_table event).

(** [process_uevent_message] once [recv] has stored [buffer]; the reads and
    the write outside the arrays end the run as a fault. *)
Definition process_uevent_message (buffer : string) : M Z := fn (
  match parse_uevent buffer with
  | Some (Parsed event) => dispatch_uevent event
  | _ => fun st => (Fault, st)
  end).

Definition simulate_uevent (subsys path action : string)
    (params : list string) : M Z := fn (
  let event := set_subsystem zero_uevent (Str subsys) in
  event <- (if streq action "add" then ret (set_action event action_add)
            else if streq action "change" then ret (set_action event action_change)
            else if streq action "remove" then ret (set_action event action_remove)
            else return_ (-1)) ;;
  let event := set_path event (Str path) in
  let event := set_param event (copy_params params) in
  dispatch_uevent event).

(** Modelled from the spec: the daemon's receive loop, which is outside
    these two files (section 5: processing is "strictly sequential, with no
    overlapping handler invocations"; section 4.2: a handler's error result
    "does not halt processing of subsequent events").  A fault ends it. *)
Fixpoint dispatch_all (events : list uevent) : M (list Z) :=
  match events with
  | [] => ret []
  | event :: rest =>
      rc <- dispatch_uevent event ;;
      rcs <- dispatch_all rest ;;
      ret (rc :: rcs)
  end.

(** [ums_send_status] of [ums.c]. *)
Definition ums_send_status : M Z := fn (
  enabled <- ums_enabled_get ;;
  rc <- command (send_msg (if enabled : bool then VOLD_EVT_UMS_ENABLED
                           else VOLD_EVT_UMS_DISABLED))
                (Send_msg (if enabled : bool then VOLD_EVT_UMS_ENABLED
                           else VOLD_EVT_UMS_DISABLED)) ;;
  if rc <? 0 then return_ rc
  else
    connected <- ums_hostconnected_get ;;
    rc' <- command (send_msg (if connected : bool then VOLD_EVT_UMS_CONNECTED
                              else VOLD_EVT_UMS_DISCONNECTED))
                   (Send_msg (if connected : bool then VOLD_EVT_UMS_CONNECTED
                              else VOLD_EVT_UMS_DISCONNECTED)) ;;
    ret rc').

End Code.

(** ** [ums.c]: the lun file *)

(** The system calls of [ums_enable] and [ums_disable], as parameters:
    [files] is the state of the file system, of the process's descriptors
    and of [errno].  [sys_open] is [open(filename, O_WRONLY)] and
    [sys_write fd bytes] is [write(fd, buf, n)] for the [n] bytes [bytes];
    each returns what the call returns. *)
Class Libc : Type := {
  files : Type;
  sys_open : string -> files -> Z * files;
  sys_write : Z -> string -> files -> Z * files;
  sys_close : Z -> files -> Z * files;
  errno : files -> Z
}.

Section LunFile.

Context {L : Libc}.

Inductive syscall : Type :=
| Sys_open (filename : string) (fd : Z)
| Sys_write (fd : Z) (bytes : string) (r : Z)
| Sys_close (fd : Z) (r : Z).

(** [char filename[255]; sprintf(filename, "/sys/%s/file", lun_syspath)]:
    the ten characters around [lun_syspath] and the terminator leave room
    for 244; [None] when the array is overrun. *)
Definition lun_filename (lun_syspath : string) : option string :=
  if (244 <? String.length lun_syspath)%nat then None
  else Some ("/sys/" ++ lun_syspath ++ "/file").

(** What [ums_enable] and [ums_disable] do with the file once its name is
    built: open it, write [bytes], close it.  The result is the function's
    value ([Fault] for the overrun of [filename]), the file system it
    leaves, and the system calls it made, oldest first. *)
Definition write_lun_file (filename : option string) (bytes : string)
    (fs : files) : res Z * files * list syscall :=
  match filename with
  | None => (Fault, fs, [])
  | Some filename =>
      let '(fd, fs1) := sys_open filename fs in
      if fd <? 0 then (Val (- errno fs1), fs1, [Sys_open filename fd])
      else
        let '(n, fs2) := sys_write fd bytes fs1 in
        let '(c, fs3) := sys_close fd fs2 in
        (if n <? 0 then Val (- errno fs3) else Val 0, fs3,
         [Sys_open filename fd; Sys_write fd bytes n; Sys_close fd c])
  end.

(** [ums_enable]: [write(fd, dev_fspath, strlen(dev_fspath))]. *)
Definition ums_enable (dev_fspath lun_syspath : string) (fs : files)
  : res Z * files * list syscall :=
  write_lun_file (lun_filename lun_syspath) dev_fspath fs.

(** [ums_disable]: [char ch = 0; write(fd, &ch, 1)]. *)
Definition ums_disable (lun_syspath : string) (fs : files)
  : res Z * files * list syscall :=
  write_lun_file (lun_filename lun_syspath) (String NUL EmptyString) fs.

Definition is_close (fd : Z) (c : syscall) : bool :=
  match c with Sys_close fd' _ => fd' =? fd | _ => false end.

Definition is_write (c : syscall) : bool :=
  match c with Sys_write _ _ _ => true | _ => false end.

End LunFile.

(** A file system for examples: the files that exist with what was written
    to them, the file behind descriptor 3 while it is open, and [errno].
    Opening a missing file fails with ENOENT (2), writing to a descriptor
    that is not open with EBADF (9). *)
Module ExampleFiles.

Record t : Type := mk_files {
  contents : list (string * string);
  opened : option string;
  last_errno : Z
}.

Definition open (filename : string) (fs : t) : Z * t :=
  if existsb (fun f => String.eqb (fst f) filename) (contents fs)
  then (3, {| contents := contents fs; opened := Some filename;
              last_errno := last_errno fs |})
  else (-1, {| contents := contents fs; opened := opened fs; last_errno := 2 |}).

Definition write (fd : Z) (bytes : string) (fs : t) : Z * t :=
  match opened fs with
  | Some filename =>
      if fd =? 3
      then (Z.of_nat (String.length bytes),
            {| contents :=
                 map (fun f => if String.eqb (fst f) filename
                               then (fst f, bytes) else f) (contents fs);
               opened := opened fs; last_errno := last_errno fs |})
      else (-1, {| contents := contents fs; opened := opened fs;
                   last_errno := 9 |})
  | None => (-1, {| contents := contents fs; opened := opened fs;
                    last_errno := 9 |})
  end.

Definition close (fd : Z) (fs : t) : Z * t :=
  (0, {| contents := contents fs; opened := None;
         last_errno := last_errno fs |}).

Definition libc : Libc :=
  {| files := t; sys_open := open; sys_write := write; sys_close := close;
     errno := last_errno |}.

Definition lun0 : string := "devices/platform/usb_mass_storage/lun0".

(** The lun file exists and is empty. *)
Definition gadget : t :=
  {| contents := [("/sys/" ++ lun0 ++ "/file", "")]; opened := None;
     last_errno := 0 |}.


End ExampleFiles.

(** ** A world for the collaborators *)

Module SpecWorld.

(** Modelled from the spec: the BlockDeviceRegistry, MediaRegistry,
    VolumeManager and sysfs collaborators of section 6, whose code
    ([blkdev.c], [media.c], [volmgr.c], [misc.c]) is outside these two
    files.  A BlockDevice is identified by (major, minor) (section 3);
    creating a disk registers a placeholder, without device path, for each
    partition the disk is known to carry ("a placeholder previously created
    while enumerating partitions", section 4.3), and the disk's
    pending-partition counter counts its placeholders that have not received
    their device path yet; [notifyEject] only records the request, the
    completion being invoked "at a time of its own choosing" (section 5). *)

Definition devno : Type := (Z * Z)%type.

Definition devno_eqb (a b : devno) : bool :=
  ((fst a =? fst b) && (snd a =? snd b))%bool.

Record blkdev : Type := mk_blkdev {
  b_devno : devno;
  b_devpath : cstr;
  b_type : cstr;
  b_disk : devno
}.

Record media : Type := mk_media {
  m_devpath : string;
  m_name : cstr;
  m_serial : string;
  m_devs : list devno
}.

Record t : Type := mk_world {
  blkdevs : list blkdev;
  medias : list media;
  partition_tables : list (Z * list Z);
  considered : list devno;
  ejecting : list devno;
  sent : list vold_evt
}.

Definition with_blkdevs (w : t) (l : list blkdev) : t :=
  {| blkdevs := l; medias := medias w; partition_tables := partition_tables w;
     considered := considered w; ejecting := ejecting w; sent := sent w |}.

Definition with_medias (w : t) (l : list media) : t :=
  {| blkdevs := blkdevs w; medias := l; partition_tables := partition_tables w;
     considered := considered w; ejecting := ejecting w; sent := sent w |}.

Definition find_blkdev (d : devno) (w : t) : option blkdev :=
  find (fun b => devno_eqb (b_devno b) d) (blkdevs w).

(** Modelled from the spec: [lookupByDevNo(major, minor) -> BlockDevice|none]. *)
Definition lookup_by_devno (maj min : Z) (w : t) : option devno :=
  option_map b_devno (find_blkdev (maj, min) w).

(** Modelled from the spec: [setDevicePath(dev, path)]. *)
Definition devpath_set (d : devno) (p : cstr) (w : t) : t :=
  with_blkdevs w
    (map (fun b => if devno_eqb (b_devno b) d
                   then {| b_devno := b_devno b; b_devpath := p;
                           b_type := b_type b; b_disk := b_disk b |}
                   else b)
         (blkdevs w)).

Definition partitions_of (maj : Z) (w : t) : list Z :=
  match find (fun e => fst e =? maj) (partition_tables w) with
  | Some e => snd e
  | None => []
  end.

(** Modelled from the spec: the placeholders of the partitions of [disk] that
    are not registered yet. *)
Definition placeholders (disk : devno) (w : t) : list blkdev :=
  map (fun m => {| b_devno := (fst disk, m); b_devpath := NULL;
                   b_type := Str "partition"; b_disk := disk |})
      (filter (fun m => match lookup_by_devno (fst disk) m w with
                        | None => true
                        | Some _ => false
                        end)
              (partitions_of (fst disk) w)).

(** Modelled from the spec: [create(parentDisk, path, major, minor, media,
    devType)]; without a parent disk the new device is its own disk. *)
Definition create (disk : option devno) (p : cstr) (maj min : Z)
    (m : string) (type : cstr) (w : t) : option devno * t :=
  let self := (maj, min) in
  let b := {| b_devno := self; b_devpath := p; b_type := type;
              b_disk := match disk with Some d => d | None => self end |} in
  let extra := match type with
               | Str "disk" => placeholders self w
               | _ => []
               end in
  (Some self, with_blkdevs w (blkdevs w ++ b :: extra)).

Definition is_pending (disk : devno) (b : blkdev) : bool :=
  (devno_eqb (b_disk b) disk && negb (devno_eqb (b_devno b) disk)
   && match b_devpath b with NULL => true | _ => false end)%bool.

(** Modelled from the spec: [pendingPartitionCount(disk)]. *)
Definition num_pending_partitions (disk : devno) (w : t) : Z :=
  Z.of_nat (List.length (filter (is_pending disk) (blkdevs w))).

(** Modelled from the spec: [destroy(dev)] of the BlockDeviceRegistry. *)
Definition destroy (d : devno) (w : t) : t :=
  with_blkdevs w (filter (fun b => negb (devno_eqb (b_devno b) d)) (blkdevs w)).

(** Modelled from the spec: the parent-disk reference of a BlockDevice. *)
Definition disk_of (d : devno) (w : t) : devno :=
  match find_blkdev d w with
  | Some b => b_disk b
  | None => d
  end.

(** Modelled from the spec: [lookupByPath(path) -> Media|none], by exact
    match. *)
Definition lookup_by_path (p : cstr) (fuzzy : bool) (w : t) : option string :=
  match p with
  | Str p => option_map m_devpath
               (find (fun m => String.eqb (m_devpath m) p) (medias w))
  | _ => None
  end.

(** Modelled from the spec: [lookupByDevice(dev) -> Media|none]. *)
Definition lookup_by_dev (d : devno) (w : t) : option string :=
  option_map m_devpath
    (find (fun m => existsb (devno_eqb d) (m_devs m)) (medias w)).

Definition on_media (f : media -> media) (m : string) (w : t) : t :=
  with_medias w
    (map (fun x => if String.eqb (m_devpath x) m then f x else x) (medias w)).

(** Modelled from the spec: [addBlockDevice(media, dev) -> status]. *)
Definition add_blkdev (m : string) (d : devno) (w : t) : Z * t :=
  (0, on_media (fun x => {| m_devpath := m_devpath x; m_name := m_name x;
                            m_serial := m_serial x;
                            m_devs := m_devs x ++ [d] |}) m w).

(** Modelled from the spec: [removeBlockDevice(media, dev)]. *)
Definition remove_blkdev (m : string) (d : devno) (w : t) : t :=
  on_media (fun x => {| m_devpath := m_devpath x; m_name := m_name x;
                        m_serial := m_serial x;
                        m_devs := filter (fun y => negb (devno_eqb y d))
                                         (m_devs x) |}) m w.

(** Modelled from the spec: [create(path, name, serial, kind) -> Media|error]
    of the MediaRegistry; a Media is identified by its device path. *)
Definition create_media (p name : cstr) (serial : string) (w : t)
  : option string * t :=
  match p with
  | Str p => (Some p,
              with_medias w (medias w ++ [ {| m_devpath := p; m_name := name;
                                              m_serial := serial;
                                              m_devs := [] |} ]))
  | _ => (None, w)
  end.

(** Modelled from the spec: [destroy(media)] of the MediaRegistry; the
    BlockDevices that were attached stay registered (section 4.4: the
    original has no dedicated path for this case). *)
Definition destroy_media (m : string) (w : t) : t :=
  with_medias w (filter (fun x => negb (String.eqb (m_devpath x) m)) (medias w)).

(** Modelled from the spec: [considerDisk(disk) -> status]. *)
Definition consider_disk (d : devno) (w : t) : Z * t :=
  (0, {| blkdevs := blkdevs w; medias := medias w;
         partition_tables := partition_tables w;
         considered := considered w ++ [d]; ejecting := ejecting w;
         sent := sent w |}).

(** Modelled from the spec: [notifyEject(dev, onOkToDestroy) -> status]; the
    completion is not run here. *)
Definition notify_eject (d : devno) (cb : callback) (w : t) : Z * t :=
  (0, {| blkdevs := blkdevs w; medias := medias w;
         partition_tables := partition_tables w;
         considered := considered w; ejecting := ejecting w ++ [d];
         sent := sent w |}).

(** Modelled from the spec: [send_msg] of the daemon, which posts a message to its
    client. *)
Definition send (msg : vold_evt) (w : t) : Z * t :=
  (0, {| blkdevs := blkdevs w; medias := medias w;
         partition_tables := partition_tables w;
         considered := considered w; ejecting := ejecting w;
         sent := sent w ++ [msg] |}).

(** The part of [s] before its last ['/'] ([None] without one). *)
Fixpoint cut_last (s : string) : option string :=
  match s with
  | EmptyString => None
  | String c r =>
      match cut_last r with
      | Some r' => Some (String c r')
      | None => if Ascii.eqb c "/" then Some EmptyString else None
      end
  end.

Fixpoint cut (n : nat) (s : string) : string :=
  match n with
  | O => s
  | S n' => match cut_last s with
            | Some s' => cut n' s'
            | None => EmptyString
            end
  end.

(** Modelled from the spec: [truncate_sysfs_path] ([misc.c] is outside
    these two files).  Section 4.3 truncates a disk's path at depth 2 and a
    partition's at depth 3 to reach the one Media that backs both, so the
    depth is the number of components removed from the end of the path. *)
Definition truncate (p : cstr) (n : Z) : string :=
  match p with
  | Str p => cut (Z.to_nat n) p
  | _ => EmptyString
  end.

(** Modelled from the spec: [readAttribute(devicePath, attrName)]. *)
Definition sysfs_var (p : cstr) (var : string) (w : t) : string := "0".

Definition collaborators : Collaborators :=
  {| world := t;
     blkdev_t := devno;
     media_t := string;
     truncate_sysfs_path := truncate;
     read_sysfs_var := sysfs_var;
     blkdev_lookup_by_devno := lookup_by_devno;
     blkdev_devpath_set := devpath_set;
     blkdev_create := create;
     blkdev_get_num_pending_partitions := num_pending_partitions;
     blkdev_destroy := destroy;
     blkdev_disk := disk_of;
     media_lookup_by_path := lookup_by_path;
     media_lookup_by_dev := lookup_by_dev;
     media_add_blkdev := add_blkdev;
     media_remove_blkdev := remove_blkdev;
     media_create := create_media;
     media_destroy := destroy_media;
     volmgr_consider_disk := consider_disk;
     volmgr_notify_eject := notify_eject;
     send_msg := send |}.

(** The world at start-up, on a machine whose disk 179:0 carries the
    partitions 179:1 and 179:2. *)
Definition boot : t :=
  {| blkdevs := []; medias := []; partition_tables := [(179, [1; 2])];
     considered := []; ejecting := []; sent := [] |}.

Definition start : @state collaborators :=
  @mk_state collaborators false false boot [].

Definition card : string := "/devices/platform/mmc0/mmc0:0001".

Definition ev (sub : string) (a : uevent_action) (p : string)
    (ps : list string) : uevent :=
  {| path := Str p; action := a; subsystem := Str sub;
     param := copy_params ps; seqnum := 0 |}.

Definition mmc_add : uevent :=
  ev "mmc" action_add card ["MMC_TYPE=SD"; "MMC_NAME=SD02G"].

Definition mmc_remove : uevent := ev "mmc" action_remove card [].

Definition disk_ev (a : uevent_action) : uevent :=
  ev "block" a (card ++ "/block/mmcblk0")
     ["DEVTYPE=disk"; "MAJOR=179"; "MINOR=0"].

Definition part_ev (a : uevent_action) (n : string) : uevent :=
  ev "block" a (card ++ "/block/mmcblk0/mmcblk0p" ++ n)
     ["DEVTYPE=partition"; "MAJOR=179"; "MINOR=" ++ n].

(** The state a run of events leaves. *)
Definition run (events : list uevent) (st : @state collaborators)
  : @state collaborators :=
  snd (dispatch_all (C := collaborators) events st).

(** The card is inserted. *)
Definition inserted : @state collaborators := run [mmc_add] start.

(** The card is inserted and its disk announced. *)
Definition with_disk : @state collaborators :=
  run [disk_ev action_add] inserted.

(** The card's Media is removed while its disk is still registered. *)
Definition orphaned : @state collaborators := run [mmc_remove] with_disk.

(** The disk and the first of its two partitions are announced. *)
Definition one_left : @state collaborators :=
  run [disk_ev action_add; part_ev action_add "1"] inserted.

(** The host is connected and mass storage is shared. *)
Definition sharing : @state collaborators :=
  @mk_state collaborators true true boot [].

Definition disk_first : list uevent :=
  [disk_ev action_add; part_ev action_add "1"; part_ev action_add "2"].


Definition cdrom_remove : uevent :=
  ev "block" action_remove "/devices/pci/ide0/block/hdc"
     ["DEVTYPE=cdrom"; "MAJOR=22"; "MINOR=0"].

Definition usb_offline : uevent :=
  ev "switch" action_change "/devices/virtual/switch/usb_mass_storage"
     ["SWITCH_NAME=usb_mass_storage"; "SWITCH_STATE=offline"].

Definition bare_switch : uevent :=
  ev "switch" action_change "/devices/virtual/switch/h2w"
     ["SWITCH_STATE=1"].

Definition sdio_add : uevent :=
  ev "mmc" action_add "/devices/platform/mmc1/mmc1:0001"
     ["MMC_TYPE=SDIO"; "MMC_NAME=wifi"].

Definition usb_online : uevent :=
  ev "switch" action_change "/devices/virtual/switch/usb_mass_storage"
     ["SWITCH_NAME=usb_mass_storage"; "SWITCH_STATE=online"].

Definition h2w_switch : uevent :=
  ev "switch" action_change "/devices/virtual/switch/h2w" ["SWITCH_NAME=h2w"].

Definition input_add : uevent :=
  ev "input" action_add "/devices/virtual/input/input0" ["NAME=keypad"].

(** A switch event whose only string starts with "SWITCH_NAME" without
    being SWITCH_NAME=value. *)
Definition switch_names : uevent :=
  ev "switch" action_change "/devices/virtual/switch/h2w" ["SWITCH_NAMES=x"].

(** The Add of a disk that no tracked Media backs, without MAJOR and MINOR. *)
Definition bare_disk_add : uevent :=
  ev "block" action_add "/devices/platform/scsi/host0/block/sda"
     ["DEVTYPE=disk"].

(** The card's Add without MMC_NAME. *)
Definition nameless_card : uevent := ev "mmc" action_add card ["MMC_TYPE=SD"].





End SpecWorld.

(** ** Counting calls in a trace *)

Section Traces.

Context {C : Collaborators}.

Definition is_consider_disk (c : call) : bool :=
  match c with Volmgr_consider_disk _ _ => true | _ => false end.

Definition is_notify_eject (c : call) : bool :=
  match c with Volmgr_notify_eject _ _ _ => true | _ => false end.

(** The calls that detach a BlockDevice from its Media or destroy it. *)
Definition is_destroy (c : call) : bool :=
  match c with
  | Blkdev_destroy _ | Media_remove_blkdev _ _ => true
  | _ => false
  end.

Definition count (p : call -> bool) (l : list call) : nat :=
  List.length (filter p l).

(** The calls made between two states of one run. *)
Definition since (before after : state) : list call :=
  skipn (List.length (calls before)) (calls after).

(** Traces in which [volmgr_consider_disk] is only ever called directly
    after [blkdev_get_num_pending_partitions] returned 0 for the same disk. *)
Inductive guarded : list call -> Prop :=
| guarded_nil : guarded []
| guarded_zero (disk : blkdev_t) (rc : Z) (tr : list call) :
    guarded tr ->
    guarded (Blkdev_get_num_pending_partitions disk 0
             :: Volmgr_consider_disk disk rc :: tr)
| guarded_other (c : call) (tr : list call) :
    is_consider_disk c = false -> guarded tr -> guarded (c :: tr).

(** The world after the [action_add] branch attached an already registered
    BlockDevice to its Media, and what [media_add_blkdev] returned. *)
Definition attached (event : uevent) (media : media_t) (dev : blkdev_t)
    (w : world) : Z * world :=
  media_add_blkdev media dev (blkdev_devpath_set dev (path event) w).

(** When the [action_add] branch hands the disk to the volume manager. *)
Definition triggers (event : uevent) (media : media_t) (maj min : Z)
    (w : world) : Prop :=
  exists dev,
    blkdev_lookup_by_devno maj min w = Some dev
    /\ 0 <= fst (attached event media dev w)
    /\ let w' := snd (attached event media dev w) in
       blkdev_get_num_pending_partitions (blkdev_disk dev w') w' = 0.

(** What one handler invocation may add to the trace. *)
Definition one_event (tr : list call) : Prop :=
  guarded tr
  /\ (count is_consider_disk tr <= 1)%nat
  /\ count is_destroy tr = 0%nat
  /\ (count is_notify_eject tr <= 1)%nat.

(** The handler starts by truncating the path at depth [n] and looking the
    result up among the Media. *)
Definition resolves_media_at (event : uevent) (st : state) (n : Z) : Prop :=
  let mediapath := truncate_sysfs_path (path event) n in
  exists rest,
    since st (snd (handle_block_event event st))
    = Truncate_sysfs_path (path event) n mediapath
      :: Media_lookup_by_path (Str mediapath) false
           (media_lookup_by_path (Str mediapath) false (ext st))
      :: rest.

End Traces.

(** ** Messages made of well-formed strings *)

Fixpoint has_char (c : ascii) (s : string) : bool :=
  match s with
  | EmptyString => false
  | String x r => (Ascii.eqb x c || has_char c r)%bool
  end.

(** A string the parser stores in [param]: neither [ACTION=], [SEQNUM=]
    nor [SUBSYSTEM=]. *)
Definition is_param (f : string) : bool :=
  negb (starts_with "ACTION=" f || starts_with "SEQNUM=" f
        || starts_with "SUBSYSTEM=" f)%bool.

(** The value of an [ACTION=] string. *)
Definition action_value (f : string) : option string :=
  if starts_with "ACTION=" f then
    match offset 7 f with
    | Str a => Some a
    | _ => None
    end
  else None.

Definition recognised (a : string) : bool :=
  (streq a "add" || streq a "change" || streq a "remove")%bool.

(** The loop body applied to the strings of a message in turn. *)
Fixpoint parse_fields (fields : list string) (event : uevent)
    (param_idx : nat) : parsed :=
  match fields with
  | [] => Parsed event
  | f :: rest =>
      match parse_field f event param_idx with
      | None => WritePastParams
      | Some (event', param_idx') => parse_fields rest event' param_idx'
      end
  end.

(** The key [name] occurs in the event's params: the first string of
    [param] that starts with [name] is [name=value], within the array. *)
Definition occurs (event : uevent) (name : string) : Prop :=
  exists before value after,
    param event
    = (map Some before ++ Some (name ++ String "=" value)%string :: after)%list
    /\ (List.length before < UEVENT_PARAMS_MAX)%nat
    /\ forall p, In p before -> starts_with name p = false.

(** The depth [handle_block_event] truncates at, by [DEVTYPE]. *)
Definition depth (devtype : string) : option Z :=
  if streq devtype "disk" then Some 2
  else if streq devtype "partition" then Some 3
  else None.

(** No string of the list holds a NUL. *)
Definition nul_free (fields : list string) : Prop :=
  Forall (fun f => has_char NUL f = false) fields.

(** A message with one first string and 33 strings for [param]. *)
Definition long_message : string := message ("X@/p" :: repeat "A=1" 33).

(** ** The parser *)

Lemma cstring_shorter (s h t : string) :
  cstring s = Some (h, t) -> (String.length t < String.length s)%nat.
Proof.
  revert h t. induction s as [|c r IH]; intros h t; simpl.
  - discriminate.
  - destruct (Ascii.eqb c NUL).
    + intros E. inversion E; subst. lia.
    + destruct (cstring r) as [[h' t']|] eqn:E; [|discriminate].
      intros E'. inversion E'; subst. specialize (IH _ _ eq_refl). lia.
Qed.

Lemma parse_loop_total (fuel : nat) :
  forall s first event param_idx,
    (String.length s <= fuel)%nat ->
    parse_loop fuel s first event param_idx <> None.
Proof.
  induction fuel as [|fuel IH]; intros s first event param_idx Hlen.
  - destruct s; simpl in *; [discriminate | lia].
  - destruct s as [|c r]; [simpl; discriminate|].
    cbn [parse_loop]. destruct first.
    + destruct (scan_at (String c r)); [|discriminate].
      destruct (cstring s) as [[dup ?]|]; [|discriminate].
      destruct (cstring (String c r)) as [[? s']|] eqn:E; [|discriminate].
      apply IH. apply cstring_shorter in E. lia.
    + destruct (cstring (String c r)) as [[str s']|] eqn:E; [|discriminate].
      destruct (parse_field str event param_idx) as [[e' i']|]; [|discriminate].
      apply IH. apply cstring_shorter in E. lia.
Qed.

(** The loop over the buffer always ends: the fuel is never what stops it. *)
Lemma parse_uevent_total (buffer : string) :
  exists r, parse_uevent buffer = Some r.
Proof.
  unfold parse_uevent.
  destruct (parse_loop (String.length buffer) buffer true zero_uevent 0) eqn:E.
  - eauto.
  - exfalso. revert E. apply parse_loop_total. lia.
Qed.

Lemma has_char_app (c : ascii) (a b : string) :
  has_char c (a ++ b) = (has_char c a || has_char c b)%bool.
Proof.
  induction a as [|x a IH]; simpl; [reflexivity|].
  rewrite IH. apply orb_assoc.
Qed.

Lemma cstring_app (f t : string) :
  has_char NUL f = false -> cstring (f ++ String NUL t) = Some (f, t).
Proof.
  induction f as [|c f IH]; simpl; intros H.
  - reflexivity.
  - apply orb_false_iff in H. destruct H as [Hc Hf].
    rewrite Hc, (IH Hf). reflexivity.
Qed.

Lemma scan_at_app (a r : string) :
  has_char "@" a = false -> scan_at (a ++ String "@" r) = Some r.
Proof.
  induction a as [|c a IH]; simpl; intros H.
  - reflexivity.
  - apply orb_false_iff in H. destruct H as [Hc Ha].
    rewrite Hc. auto.
Qed.

Lemma scan_at_none (s : string) :
  has_char "@" s = false -> scan_at s = None.
Proof.
  induction s as [|c s IH]; simpl; intros H; [reflexivity|].
  apply orb_false_iff in H. destruct H as [Hc Hs]. rewrite Hc. auto.
Qed.

Lemma app_length (a b : string) :
  String.length (a ++ b) = (String.length a + String.length b)%nat.
Proof. induction a; simpl; congruence. Qed.

(** On a message of well-formed strings the loop over the buffer is the
    loop body applied to each string in turn. *)
Lemma parse_loop_message (fields : list string) :
  forall fuel event param_idx,
    nul_free fields ->
    (String.length (message fields) <= fuel)%nat ->
    parse_loop fuel (message fields) false event param_idx
    = Some (parse_fields fields event param_idx).
Proof.
  induction fields as [|f rest IH]; intros fuel event param_idx Hnul Hlen.
  - destruct fuel; reflexivity.
  - inversion Hnul as [|? ? Hf Hrest]; subst.
    cbn [message] in *. rewrite app_length in Hlen. cbn [String.length] in Hlen.
    destruct fuel as [|fuel]; [lia|].
    assert (E : exists c r, f ++ String NUL (message rest) = String c r)
      by (destruct f; simpl; eauto).
    destruct E as (c & r & E).
    pose proof (cstring_app f (message rest) Hf) as Hc.
    rewrite E in *. cbn [parse_loop]. rewrite Hc.
    cbn [parse_fields].
    destruct (parse_field f event param_idx) as [[e' i']|]; [|reflexivity].
    apply IH; [assumption | lia].
Qed.

Lemma parse_uevent_message (a b : string) (fields : list string) :
  has_char "@" a = false ->
  has_char NUL a = false ->
  has_char NUL b = false ->
  nul_free fields ->
  parse_uevent (message ((a ++ String "@" b) :: fields))
  = Some (parse_fields fields (set_path zero_uevent (Str b)) 0).
Proof.
  intros Hat Ha Hb Hnul. unfold parse_uevent. cbn [message].
  set (rest := message fields).
  assert (Hfirst : has_char NUL (a ++ String "@" b) = false).
  { rewrite has_char_app. simpl. rewrite Ha, Hb. reflexivity. }
  pose proof (cstring_app _ rest Hfirst) as Hc.
  assert (Hscan : scan_at ((a ++ String "@" b) ++ String NUL rest)
                  = Some (b ++ String NUL rest)).
  { rewrite <- (scan_at_app a (b ++ String NUL rest) Hat).
    f_equal. clear. induction a; simpl; congruence. }
  assert (Hlen : String.length ((a ++ String "@" b) ++ String NUL rest)
                 = S (String.length (a ++ String "@" b) + String.length rest)).
  { rewrite app_length. simpl. lia. }
  rewrite Hlen.
  assert (E : exists c r, (a ++ String "@" b) ++ String NUL rest = String c r)
    by (destruct a; simpl; eauto).
  destruct E as (c & r & E). rewrite E in *.
  cbn [parse_loop]. rewrite Hscan, (cstring_app b rest Hb), Hc.
  apply parse_loop_message; [assumption | unfold rest; lia].
Qed.

Lemma parse_field_param (f : string) (event : uevent) (param_idx : nat) :
  is_param f = true ->
  parse_field f event param_idx
  = if (param_idx <? UEVENT_PARAMS_MAX)%nat
    then Some (set_param event (store param_idx (Some f) (param event)),
               S param_idx)
    else None.
Proof.
  unfold is_param, parse_field. intros H.
  apply negb_true_iff in H. apply orb_false_iff in H. destruct H as [H H3].
  apply orb_false_iff in H. destruct H as [H1 H2].
  rewrite H1, H2, H3. reflexivity.
Qed.

Lemma parse_field_dedicated (f : string) (event : uevent) (param_idx : nat) :
  is_param f = false ->
  exists event', parse_field f event param_idx = Some (event', param_idx)
                 /\ param event' = param event.
Proof.
  unfold is_param, parse_field. intros H. apply negb_false_iff in H.
  destruct (starts_with "ACTION=" f).
  { destruct (offset 7 f); eauto.
    destruct (streq s "add"); [eauto|].
    destruct (streq s "change"); [eauto|].
    destruct (streq s "remove"); eauto. }
  destruct (starts_with "SEQNUM=" f).
  { destruct (offset 7 f); eauto. }
  destruct (starts_with "SUBSYSTEM=" f); [eauto | discriminate].
Qed.

(** More strings for [param] than the array has slots: the loop stores one
    outside the array. *)
Lemma parse_fields_overflow (fields : list string) :
  forall event param_idx,
    (param_idx <= UEVENT_PARAMS_MAX)%nat ->
    (UEVENT_PARAMS_MAX < param_idx + List.length (filter is_param fields))%nat ->
    parse_fields fields event param_idx = WritePastParams.
Proof.
  induction fields as [|f rest IH]; intros event param_idx Hle Hgt.
  - simpl in Hgt. lia.
  - cbn [parse_fields filter] in *. destruct (is_param f) eqn:Hp.
    + rewrite (parse_field_param _ _ _ Hp).
      destruct (param_idx <? UEVENT_PARAMS_MAX)%nat eqn:Hlt; [|reflexivity].
      apply Nat.ltb_lt in Hlt. apply IH; [lia|]. simpl in Hgt. lia.
    + destruct (parse_field_dedicated f event param_idx Hp) as (e' & -> & _).
      apply IH; assumption.
Qed.

(** An [ACTION=] string whose value is not recognised leaves [action] as it
    was; so do the strings for the other fields. *)
Lemma parse_field_action (f : string) (event : uevent) (param_idx : nat) :
  (forall v, action_value f = Some v -> recognised v = false) ->
  forall event' idx',
    parse_field f event param_idx = Some (event', idx') ->
    action event' = action event.
Proof.
  unfold action_value, parse_field, recognised. intros H event' idx'.
  destruct (starts_with "ACTION=" f).
  { destruct (offset 7 f) as [|a|].
    - intros E; inversion E; reflexivity.
    - specialize (H a eq_refl).
      apply orb_false_iff in H. destruct H as [H Hr].
      apply orb_false_iff in H. destruct H as [Ha Hc].
      rewrite Ha, Hc, Hr. intros E; inversion E; reflexivity.
    - intros E; inversion E; reflexivity. }
  destruct (starts_with "SEQNUM=" f).
  { destruct (offset 7 f); intros E; inversion E; reflexivity. }
  destruct (starts_with "SUBSYSTEM=" f).
  { intros E; inversion E; reflexivity. }
  destruct (param_idx <? UEVENT_PARAMS_MAX)%nat; intros E; inversion E; reflexivity.
Qed.

Lemma parse_fields_action (fields : list string) :
  forall event param_idx,
    (param_idx + List.length (filter is_param fields) <= UEVENT_PARAMS_MAX)%nat ->
    (forall f v, In f fields -> action_value f = Some v -> recognised v = false) ->
    exists event',
      parse_fields fields event param_idx = Parsed event'
      /\ action event' = action event.
Proof.
  induction fields as [|f rest IH]; intros event param_idx Hle Hact.
  - simpl. eauto.
  - cbn [parse_fields filter] in *.
    assert (Hf : forall v, action_value f = Some v -> recognised v = false)
      by (intros v; apply Hact; left; reflexivity).
    destruct (is_param f) eqn:Hp.
    + pose proof (parse_field_action f event param_idx Hf) as Ha.
      rewrite (parse_field_param _ _ _ Hp) in *.
      simpl in Hle.
      destruct (param_idx <? UEVENT_PARAMS_MAX)%nat eqn:Hlt;
        [|apply Nat.ltb_ge in Hlt; lia].
      specialize (Ha _ _ eq_refl).
      destruct (IH (set_param event (store param_idx (Some f) (param event)))
                   (S param_idx)) as (e' & E & A).
      * lia.
      * intros; eapply Hact; [right|]; eassumption.
      * exists e'. split; [exact E | congruence].
    + destruct (parse_field_dedicated f event param_idx Hp) as (e1 & E1 & _).
      pose proof (parse_field_action f event param_idx Hf _ _ E1) as Ha.
      rewrite E1.
      destruct (IH e1 param_idx) as (e' & E & A).
      * exact Hle.
      * intros; eapply Hact; [right|]; eassumption.
      * exists e'. split; [exact E | congruence].
Qed.

(** C4: the buffer "X@/devices/foo", "ACTION=add", "SEQNUM=5",
    "SUBSYSTEM=block", "DEVTYPE=disk", "MAJOR=8", "MINOR=0", each string
    followed by NUL, parses to the event with path "/devices/foo", action
    Add, subsystem "block", seqnum 5 and the params "DEVTYPE=disk",
    "MAJOR=8", "MINOR=0" in that order. *)
Theorem parse_example_message :
  exists event,
    parse_uevent example_message = Some (Parsed event)
    /\ path event = Str "/devices/foo"
    /\ action event = action_add
    /\ subsystem event = Str "block"
    /\ seqnum event = 5
    /\ params event = ["DEVTYPE=disk"; "MAJOR=8"; "MINOR=0"].
Proof.
  eexists. split; [vm_compute; reflexivity|].
  repeat split; reflexivity.
Qed.

(** C8: in a message of well-formed strings whose [ACTION=] values are
    none of "add", "change", "remove" (and with no more strings for [param]
    than it has slots), the parser produces an event, its action is
    [action_add], the value the zeroed structure starts with, and no error
    is reported. *)
Theorem unknown_action_is_add (a b : string) (fields : list string) :
  has_char "@" a = false ->
  has_char NUL a = false ->
  has_char NUL b = false ->
  nul_free fields ->
  (List.length (filter is_param fields) <= UEVENT_PARAMS_MAX)%nat ->
  (forall f v, In f fields -> action_value f = Some v -> recognised v = false) ->
  exists event,
    parse_uevent (message ((a ++ String "@" b) :: fields)) = Some (Parsed event)
    /\ action event = action_add.
Proof.
  intros Hat Ha Hb Hnul Hlen Hact.
  rewrite (parse_uevent_message a b fields Hat Ha Hb Hnul).
  destruct (parse_fields_action fields (set_path zero_uevent (Str b)) 0)
    as (e & E & A); [simpl; lia | exact Hact |].
  exists e. split; [congruence | exact A].
Qed.

(** A message whose action is "bogus". *)
Lemma unknown_action_is_add_witness :
  exists event,
    parse_uevent (message ["X@/devices/foo"; "ACTION=bogus"; "SUBSYSTEM=block";
                           "DEVTYPE=disk"])
    = Some (Parsed event)
    /\ action event = action_add.
Proof.
  apply (unknown_action_is_add "X" "/devices/foo"
           ["ACTION=bogus"; "SUBSYSTEM=block"; "DEVTYPE=disk"]).
  - reflexivity.
  - reflexivity.
  - reflexivity.
  - repeat constructor.
  - simpl. unfold UEVENT_PARAMS_MAX. lia.
  - intros f v [<-|[<-|[<-|[]]]]; vm_compute; intros E;
      try discriminate E; inversion E; reflexivity.
Defined.

(** C3, at a buffer without '@' ("add" and its terminator), at a buffer
    whose last string lacks its terminator, and at a buffer whose first
    string lacks '@' while a later one has it: the scan for '@' and the
    string functions run past the received bytes in the first two, and in
    the third the scan crosses the first terminator and the message is
    accepted. *)
Theorem parse_reads_past_end :
  parse_uevent (message ["add"]) = Some ReadPastEnd
  /\ parse_uevent "X@/dev" = Some ReadPastEnd
  /\ exists event,
       parse_uevent (message ["abc"; "X@/dev"]) = Some (Parsed event)
       /\ path event = Str "/dev" /\ params event = ["X@/dev"].
Proof.
  split; [reflexivity|]. split; [reflexivity|].
  eexists. split; [vm_compute; reflexivity|]. split; reflexivity.
Qed.

(** Any non-empty buffer without '@' makes the scan read past the end. *)
Lemma parse_without_at (buffer : string) :
  buffer <> EmptyString ->
  has_char "@" buffer = false ->
  parse_uevent buffer = Some ReadPastEnd.
Proof.
  intros Hne Hat. unfold parse_uevent.
  destruct buffer as [|c r]; [congruence|].
  cbn [String.length parse_loop]. rewrite (scan_at_none _ Hat). reflexivity.
Qed.

(** C5, at a message with 33 strings for [param]: the 33rd is stored at
    [param[32]], outside the array, where 32 strings fill it exactly. *)
Theorem parse_long_message :
  parse_uevent long_message = Some WritePastParams
  /\ exists event,
       parse_uevent (message ("X@/p" :: repeat "A=1" 32)) = Some (Parsed event)
       /\ params event = repeat "A=1" 32.
Proof.
  split; [vm_compute; reflexivity|].
  eexists. split; [vm_compute; reflexivity|]. reflexivity.
Qed.

(** A message of terminated strings whose first string holds '@' is parsed
    without a read past the received bytes. *)
Lemma parse_in_bounds (a b : string) (fields : list string) :
  has_char "@" a = false ->
  has_char NUL a = false ->
  has_char NUL b = false ->
  nul_free fields ->
  parse_uevent (message ((a ++ String "@" b) :: fields)) <> Some ReadPastEnd.
Proof.
  intros Hat Ha Hb Hnul.
  rewrite (parse_uevent_message a b fields Hat Ha Hb Hnul).
  generalize (set_path zero_uevent (Str b)) as event, 0%nat as param_idx.
  induction fields as [|f rest IH]; intros event param_idx; cbn [parse_fields].
  - discriminate.
  - inversion Hnul; subst.
    destruct (parse_field f event param_idx) as [[e' i']|]; [|discriminate].
    apply IH. assumption.
Qed.

(** [simulate_uevent] bounds the same copy by the size of the array. *)
Lemma copy_params_bounded (ps : list string) :
  List.length (copy_params ps) = UEVENT_PARAMS_MAX
  /\ until_null (copy_params ps) = firstn UEVENT_PARAMS_MAX ps.
Proof.
  unfold copy_params.
  set (kept := firstn UEVENT_PARAMS_MAX ps).
  assert (Hk : (List.length kept <= UEVENT_PARAMS_MAX)%nat)
    by apply firstn_le_length.
  split.
  - rewrite length_app, length_map, repeat_length. lia.
  - generalize (UEVENT_PARAMS_MAX - List.length kept)%nat as n.
    clear Hk. induction kept as [|x l IH]; intros n; simpl.
    + destruct n; reflexivity.
    + f_equal. apply IH.
Qed.

(** ** Looking a parameter up *)

Lemma get_param_from_found (name v : string) (c : ascii)
    (rest : list (option string)) :
  get_param_from (Some (name ++ String c v) :: rest) name = Str v.
Proof.
  cbn [get_param_from]. unfold starts_with.
  assert (P : String.prefix name (name ++ String c v) = true).
  { induction name as [|x name IH]; cbn; [reflexivity|].
    rewrite IH. destruct (ascii_dec x x); [reflexivity | congruence]. }
  rewrite P. induction name as [|x name IH]; cbn; [reflexivity|].
  apply IH. cbn in P. destruct (ascii_dec x x); [exact P | congruence].
Qed.

(** A string that is the bare key makes [get_uevent_param] step over its
    terminator. *)
Lemma get_param_from_bare (name : string) (rest : list (option string)) :
  get_param_from (Some name :: rest) name = PastEnd.
Proof.
  cbn [get_param_from]. unfold starts_with.
  assert (P : String.prefix name name = true).
  { induction name as [|x name IH]; cbn; [reflexivity|].
    rewrite IH. destruct (ascii_dec x x); [reflexivity | congruence]. }
  rewrite P. clear P. induction name as [|x name IH]; cbn; [reflexivity|].
  exact IH.
Qed.

Lemma get_param_from_skip (name : string) (before : list string)
    (slots : list (option string)) :
  (forall p, In p before -> starts_with name p = false) ->
  get_param_from (map Some before ++ slots) name = get_param_from slots name.
Proof.
  induction before as [|x before IH]; intros H; cbn [map app get_param_from].
  - reflexivity.
  - rewrite (H x) by (left; reflexivity).
    apply IH. intros p Hp. apply H. right. exact Hp.
Qed.

(** A key that occurs is found, and what is found is its value. *)
Lemma occurs_found (event : uevent) (name : string) :
  occurs event name -> exists v, get_uevent_param event name = Str v.
Proof.
  intros (before & value & after & E & Hlen & Hnot).
  exists value. unfold get_uevent_param. rewrite E, firstn_app.
  rewrite length_map.
  rewrite firstn_all2 by (rewrite length_map; lia).
  destruct (UEVENT_PARAMS_MAX - List.length before)%nat as [|k] eqn:Ek; [lia|].
  cbn [firstn]. rewrite (get_param_from_skip _ _ _ Hnot).
  apply get_param_from_found.
Qed.

(** ** The handlers *)

Section HandlerProofs.

Context {C : Collaborators}.

Lemma skipn_length_app {A : Type} (l r : list A) :
  skipn (List.length l) (l ++ r) = r.
Proof. induction l; simpl; auto. Qed.

Lemma since_app (st st' : state) (tr : list call) :
  calls st' = (calls st ++ tr)%list -> since st st' = tr.
Proof. unfold since. intros ->. apply skipn_length_app. Qed.


Lemma streq_refl (a : string) : streq a a = true.
Proof. apply String.eqb_refl. Qed.

Lemma streq_neq (a b : string) : a <> b -> streq a b = false.
Proof. apply String.eqb_neq. Qed.

Lemma streq_eq (a b : string) : streq a b = true -> a = b.
Proof. apply String.eqb_eq. Qed.

Ltac unfold_monad :=
  unfold fn, bind, ret, return_, deref, query, command, command_ in *.

(** Brings [calls st'] to the form [calls st ++ tr] and reads [tr]. *)
Ltac calls_eq :=
  cbn [calls log set_ext set_ums_enabled set_host_connected fst snd];
  repeat rewrite <- app_assoc; reflexivity.

Ltac trace := apply since_app; calls_eq.

(** *** [ums.c] *)

Lemma ums_hostconnected_set_false (st : state) :
  let st' := snd (ums_hostconnected_set false st) in
  fst (ums_hostconnected_set false st) = Val tt
  /\ host_connected st' = false
  /\ ums_enabled st' = false
  /\ exists rc rc',
       since st st' = [Send_msg VOLD_EVT_UMS_DISABLED rc;
                       Send_msg VOLD_EVT_UMS_DISCONNECTED rc'].
Proof.
  unfold ums_hostconnected_set, ums_enabled_set. unfold_monad. cbn.
  destruct (send_msg VOLD_EVT_UMS_DISABLED (ext st)) as [rc w] eqn:E1. cbn.
  destruct (send_msg VOLD_EVT_UMS_DISCONNECTED w) as [rc' w'] eqn:E2. cbn.
  repeat split. exists rc, rc'. trace.
Qed.

Lemma ums_hostconnected_set_true (st : state) :
  let st' := snd (ums_hostconnected_set true st) in
  fst (ums_hostconnected_set true st) = Val tt
  /\ host_connected st' = true
  /\ ums_enabled st' = ums_enabled st
  /\ exists rc, since st st' = [Send_msg VOLD_EVT_UMS_CONNECTED rc].
Proof.
  unfold ums_hostconnected_set. unfold_monad. cbn.
  destruct (send_msg VOLD_EVT_UMS_CONNECTED (ext st)) as [rc w] eqn:E1. cbn.
  repeat split. exists rc. trace.
Qed.

(** C10: [ums_hostconnected_set(false)] also clears [ums_enabled], where
    [ums_hostconnected_set(true)] leaves it as it was; so a switch event for
    "usb_mass_storage" in any state other than "online" leaves both flags
    false. *)
Theorem host_disconnect_disables_ums :
  (forall st,
     host_connected (snd (ums_hostconnected_set false st)) = false
     /\ ums_enabled (snd (ums_hostconnected_set false st)) = false)
  /\ (forall st,
        host_connected (snd (ums_hostconnected_set true st)) = true
        /\ ums_enabled (snd (ums_hostconnected_set true st)) = ums_enabled st)
  /\ (forall event st s,
        get_uevent_param event "SWITCH_NAME" = Str "usb_mass_storage" ->
        get_uevent_param event "SWITCH_STATE" = Str s ->
        s <> "online" ->
        fst (handle_switch_event event st) = Val 0
        /\ host_connected (snd (handle_switch_event event st)) = false
        /\ ums_enabled (snd (handle_switch_event event st)) = false).
Proof.
  split; [|split].
  - intros st. pose proof (ums_hostconnected_set_false st) as H. cbv zeta in H.
    tauto.
  - intros st. pose proof (ums_hostconnected_set_true st) as H. cbv zeta in H.
    tauto.
  - intros event st s Hn Hs Hne.
    pose proof (ums_hostconnected_set_false st) as H. cbv zeta in H.
    destruct H as (Hr & Hh & Hu & _).
    unfold handle_switch_event. unfold_monad. rewrite Hn, Hs.
    rewrite streq_refl, (streq_neq _ _ Hne).
    destruct (ums_hostconnected_set false st) as [r st'].
    cbn in Hr, Hh, Hu. subst r. cbn. auto.
Qed.

(** *** [handle_block_event] *)

(** The handler, case by case. *)
Lemma handle_block_event_cases (event : uevent) (st : state) :
  handle_block_event event st =
  match get_uevent_param event "DEVTYPE" with
  | Str v =>
      match depth v with
      | None => (Val (- EINVAL), st)
      | Some n =>
          let mediapath := truncate_sysfs_path (path event) n in
          let media := media_lookup_by_path (Str mediapath) false (ext st) in
          let st1 := log (Media_lookup_by_path (Str mediapath) false media)
                       (log (Truncate_sysfs_path (path event) n mediapath) st) in
          match media with
          | None => (Val 0, st1)
          | Some media =>
              match get_uevent_param event "MAJOR" with
              | Str a =>
                  match get_uevent_param event "MINOR" with
                  | Str b =>
                      match action event with
                      | action_add =>
                          fn (block_add event media (atoi a) (atoi b) ;;; ret 0) st1
                      | action_remove =>
                          fn (block_remove event (atoi a) (atoi b) ;;; ret 0) st1
                      | action_change => (Val 0, st1)
                      end
                  | _ => (Fault, st1)
                  end
              | _ => (Fault, st1)
              end
          end
      end
  | _ => (Fault, st)
  end.
Proof.
  unfold handle_block_event, depth. unfold_monad.
  destruct (get_uevent_param event "DEVTYPE") as [|v|]; try reflexivity.
  destruct (streq v "disk"); [|destruct (streq v "partition")];
    try reflexivity; cbn;
    match goal with
    | |- context [media_lookup_by_path ?p ?f ?w] =>
        destruct (media_lookup_by_path p f w) as [m|]
    end; try reflexivity;
    (destruct (get_uevent_param event "MAJOR") as [|a|]; try reflexivity;
     destruct (get_uevent_param event "MINOR") as [|b|]; try reflexivity;
     destruct (action event); reflexivity).
Qed.

Lemma block_remove_cases (event : uevent) (maj min : Z) (st : state) :
  fn (block_remove event maj min ;;; ret 0) st =
  let found := blkdev_lookup_by_devno maj min (ext st) in
  let st1 := log (Blkdev_lookup_by_devno maj min found) st in
  match found with
  | None => (Val 0, st1)
  | Some dev =>
      let r := volmgr_notify_eject dev cb_blkdev_ok_to_destroy (ext st) in
      (Val 0, log (Volmgr_notify_eject dev cb_blkdev_ok_to_destroy (fst r))
                  (set_ext (snd r) st1))
  end.
Proof.
  unfold block_remove. unfold_monad. cbn.
  destruct (blkdev_lookup_by_devno maj min (ext st)) as [dev|]; [|reflexivity].
  cbn.
  destruct (volmgr_notify_eject dev cb_blkdev_ok_to_destroy (ext st)); reflexivity.
Qed.

Lemma block_add_trace (event : uevent) (media : media_t) (maj min : Z)
    (st : state) :
  fst (fn (block_add event media maj min ;;; ret 0) st) <> Fault
  /\ exists tr,
       calls (snd (fn (block_add event media maj min ;;; ret 0) st))
       = (calls st ++ tr)%list
       /\ guarded tr
       /\ (count is_consider_disk tr <= 1)%nat
       /\ count is_destroy tr = 0%nat
       /\ count is_notify_eject tr = 0%nat
       /\ (count is_consider_disk tr = 1%nat
           <-> triggers event media maj min (ext st)).
Proof.
  unfold triggers, attached, block_add. unfold_monad. cbn.
  destruct (blkdev_lookup_by_devno maj min (ext st)) as [dev|] eqn:Ef; cbn.
  - destruct (media_add_blkdev media dev
                (blkdev_devpath_set dev (path event) (ext st)))
      as [rc w] eqn:Ea. cbn.
    destruct (rc <? 0) eqn:Erc; cbn.
    + split; [discriminate|]. eexists. split; [calls_eq|].
      split; [repeat constructor|]. cbn.
      split; [lia|]. split; [reflexivity|]. split; [reflexivity|].
      split; [discriminate|]. intros (dev' & E & Hrc & _).
      inversion E; subst dev'. rewrite Ea in Hrc. apply Z.ltb_lt in Erc.
      cbn in Hrc. lia.
    + destruct (blkdev_get_num_pending_partitions (blkdev_disk dev w) w =? 0)
        eqn:En; cbn.
      * destruct (volmgr_consider_disk (blkdev_disk dev w) w) as [rc' w'] eqn:Ec.
        cbn. apply Z.eqb_eq in En.
        destruct (rc' <? 0); cbn;
          (split; [discriminate|]; eexists; split; [calls_eq|];
           rewrite En;
           split; [repeat constructor|]; cbn;
           split; [lia|]; split; [reflexivity|]; split; [reflexivity|];
           split; [|reflexivity]; intros _; exists dev;
           split; [reflexivity|]; rewrite Ea; cbn; apply Z.ltb_ge in Erc;
           split; assumption).
      * split; [discriminate|]. eexists. split; [calls_eq|].
        split; [repeat constructor|]. cbn.
        split; [lia|]. split; [reflexivity|]. split; [reflexivity|].
        split; [discriminate|]. intros (dev' & E & _ & Hn).
        inversion E; subst dev'. rewrite Ea in Hn. cbn in Hn.
        apply Z.eqb_neq in En. contradiction.
  - destruct (blkdev_create (blkdev_lookup_by_devno maj 0 (ext st)) (path event)
                maj min media (get_uevent_param event "DEVTYPE") (ext st))
      as [[dev|] w] eqn:Ecr; cbn.
    + destruct (media_add_blkdev media dev w) as [rc w'] eqn:Ea. cbn.
      destruct (rc <? 0); cbn;
        (split; [discriminate|]; eexists; split; [calls_eq|];
         split; [repeat constructor|]; cbn;
         split; [lia|]; split; [reflexivity|]; split; [reflexivity|];
         split; [discriminate|]; intros (dev' & E & _); discriminate E).
    + split; [discriminate|]. eexists. split; [calls_eq|].
      split; [repeat constructor|]. cbn.
      split; [lia|]. split; [reflexivity|]. split; [reflexivity|].
      split; [discriminate|]. intros (dev' & E & _); discriminate E.
Qed.

Lemma depth_cases (v : string) :
  (v = "disk" /\ depth v = Some 2)
  \/ (v = "partition" /\ depth v = Some 3)
  \/ (v <> "disk" /\ v <> "partition" /\ depth v = None).
Proof.
  unfold depth.
  destruct (streq v "disk") eqn:E1.
  - left. split; [apply streq_eq; exact E1 | reflexivity].
  - destruct (streq v "partition") eqn:E2.
    + right; left. split; [apply streq_eq; exact E2 | reflexivity].
    + right; right. apply String.eqb_neq in E1, E2. auto.
Qed.

Lemma count_app (p : call -> bool) (a b : list call) :
  count p (a ++ b) = (count p a + count p b)%nat.
Proof. unfold count. rewrite filter_app, length_app. reflexivity. Qed.

Lemma guarded_app (a b : list call) :
  guarded a -> guarded b -> guarded (a ++ b).
Proof.
  intros Ha Hb. induction Ha; cbn [app].
  - exact Hb.
  - apply guarded_zero. exact IHHa.
  - apply guarded_other; assumption.
Qed.

Ltac side := first [ reflexivity | solve [repeat constructor] | cbn; lia ].

(** Closes [exists tr, calls st' = calls st ++ tr /\ one_event tr] when
    the calls are explicit. *)
Ltac explicit_trace :=
  first [ exists []; split; [cbn; symmetry; apply app_nil_r|]
        | eexists; split; [calls_eq|] ];
  cbn; repeat split; side.

Lemma handle_block_event_trace (event : uevent) (st : state) :
  exists tr,
    calls (snd (handle_block_event event st)) = (calls st ++ tr)%list
    /\ one_event tr.
Proof.
  rewrite handle_block_event_cases. unfold one_event.
  destruct (get_uevent_param event "DEVTYPE") as [|v|];
    [explicit_trace| |explicit_trace].
  destruct (depth v) as [n|]; [|explicit_trace].
  cbv zeta.
  destruct (media_lookup_by_path (Str (truncate_sysfs_path (path event) n))
              false (ext st)) as [m|]; [|explicit_trace].
  destruct (get_uevent_param event "MAJOR") as [|a|];
    [explicit_trace| |explicit_trace].
  destruct (get_uevent_param event "MINOR") as [|b|];
    [explicit_trace| |explicit_trace].
  destruct (action event).
  - match goal with
    | |- context [fn ?body ?s] =>
        destruct (block_add_trace event m (atoi a) (atoi b) s)
          as (_ & tr & E & G & Hc & Hd & Hn & _)
    end.
    rewrite E. eexists. split; [calls_eq|].
    cbn [app]. unfold count in *. cbn. repeat split; try lia.
    repeat (apply guarded_other; [reflexivity|]). exact G.
  - rewrite block_remove_cases. cbv zeta.
    match goal with
    | |- context [blkdev_lookup_by_devno ?x ?y ?w] =>
        destruct (blkdev_lookup_by_devno x y w) as [dev|]
    end; explicit_trace.
  - explicit_trace.
Qed.

(** *** The other handlers *)

Lemma ums_hostconnected_set_trace (connected : bool) (st : state) :
  fst (ums_hostconnected_set connected st) = Val tt
  /\ exists tr,
       calls (snd (ums_hostconnected_set connected st)) = (calls st ++ tr)%list
       /\ one_event tr.
Proof.
  unfold one_event, ums_hostconnected_set, ums_enabled_set. unfold_monad.
  destruct connected; cbn.
  - destruct (send_msg VOLD_EVT_UMS_CONNECTED (ext st)) as [rc w]. cbn.
    split; [reflexivity|]. explicit_trace.
  - destruct (send_msg VOLD_EVT_UMS_DISABLED (ext st)) as [rc w]. cbn.
    destruct (send_msg VOLD_EVT_UMS_DISCONNECTED w) as [rc' w']. cbn.
    split; [reflexivity|]. explicit_trace.
Qed.

Lemma handle_switch_event_cases (event : uevent) (st : state) :
  handle_switch_event event st =
  match get_uevent_param event "SWITCH_NAME" with
  | Str name =>
      if streq name "usb_mass_storage" then
        match get_uevent_param event "SWITCH_STATE" with
        | Str s => (Val 0, snd (ums_hostconnected_set (streq s "online") st))
        | _ => (Fault, st)
        end
      else (Val 0, st)
  | _ => (Fault, st)
  end.
Proof.
  unfold handle_switch_event. unfold_monad.
  destruct (get_uevent_param event "SWITCH_NAME") as [|name|]; try reflexivity.
  destruct (streq name "usb_mass_storage"); [|reflexivity].
  destruct (get_uevent_param event "SWITCH_STATE") as [|s|]; try reflexivity.
  destruct (streq s "online");
    match goal with
    | |- context [ums_hostconnected_set ?b st] =>
        destruct (ums_hostconnected_set_trace b st) as [E _];
        destruct (ums_hostconnected_set b st) as [r st']
    end; cbn in E; subst r; reflexivity.
Qed.

Lemma handle_mmc_event_cases (event : uevent) (st : state) :
  handle_mmc_event event st =
  match action event with
  | action_add =>
      match get_uevent_param event "MMC_TYPE" with
      | Str type =>
          if (negb (streq type "SD") && negb (streq type "MMC"))%bool
          then (Val 0, st)
          else
            let serial := read_sysfs_var (path event) "serial" (ext st) in
            let name := get_uevent_param event "MMC_NAME" in
            let r := media_create (path event) name serial (ext st) in
            (Val (match fst r with None => -1 | Some _ => 0 end),
             log (Media_create (path event) name serial (fst r))
               (set_ext (snd r)
                  (log (Read_sysfs_var (path event) "serial" serial) st)))
      | _ => (Fault, st)
      end
  | action_remove =>
      let media := media_lookup_by_path (path event) false (ext st) in
      let st1 := log (Media_lookup_by_path (path event) false media) st in
      match media with
      | None => (Val (-1), st1)
      | Some media =>
          (Val 0, log (Media_destroy media)
                    (set_ext (media_destroy media (ext st)) st1))
      end
  | action_change => (Val 0, st)
  end.
Proof.
  unfold handle_mmc_event. unfold_monad.
  destruct (action event); try reflexivity.
  - destruct (get_uevent_param event "MMC_TYPE") as [|type|]; try reflexivity.
    destruct (negb (streq type "SD") && negb (streq type "MMC"))%bool;
      [reflexivity|]. cbn.
    destruct (media_create (path event) (get_uevent_param event "MMC_NAME")
                (read_sysfs_var (path event) "serial" (ext st)) (ext st))
      as [[m|] w]; reflexivity.
  - cbn. destruct (media_lookup_by_path (path event) false (ext st));
      reflexivity.
Qed.

Lemma handle_switch_event_trace (event : uevent) (st : state) :
  exists tr,
    calls (snd (handle_switch_event event st)) = (calls st ++ tr)%list
    /\ one_event tr.
Proof.
  rewrite handle_switch_event_cases.
  destruct (get_uevent_param event "SWITCH_NAME") as [|name|];
    [unfold one_event; explicit_trace| |unfold one_event; explicit_trace].
  destruct (streq name "usb_mass_storage"); [|unfold one_event; explicit_trace].
  destruct (get_uevent_param event "SWITCH_STATE") as [|s|];
    [unfold one_event; explicit_trace| |unfold one_event; explicit_trace].
  apply ums_hostconnected_set_trace.
Qed.

Lemma handle_mmc_event_trace (event : uevent) (st : state) :
  exists tr,
    calls (snd (handle_mmc_event event st)) = (calls st ++ tr)%list
    /\ one_event tr.
Proof.
  rewrite handle_mmc_event_cases. unfold one_event.
  destruct (action event); [| |explicit_trace].
  - destruct (get_uevent_param event "MMC_TYPE") as [|type|];
      [explicit_trace| |explicit_trace].
    destruct (negb (streq type "SD") && negb (streq type "MMC"))%bool;
      explicit_trace.
  - cbv zeta.
    destruct (media_lookup_by_path (path event) false (ext st));
      explicit_trace.
Qed.

(** *** Dispatch *)

Lemma dispatch_uevent_state (event : uevent) (st : state) :
  snd (dispatch_uevent event st) =
  match subsystem event with
  | Str sub =>
      if streq "switch" sub then snd (handle_switch_event event st)
      else if streq "battery" sub then st
      else if streq "mmc" sub then snd (handle_mmc_event event st)
      else if streq "block" sub then snd (handle_block_event event st)
      else st
  | _ => st
  end.
Proof.
  unfold dispatch_uevent, dispatch_table, dispatch_from. unfold_monad.
  destruct (subsystem event) as [|sub|]; try reflexivity.
  destruct (streq "switch" sub);
    [destruct (handle_switch_event event st) as [[] ?]; reflexivity|].
  destruct (streq "battery" sub); [reflexivity|].
  destruct (streq "mmc" sub);
    [destruct (handle_mmc_event event st) as [[] ?]; reflexivity|].
  destruct (streq "block" sub);
    [destruct (handle_block_event event st) as [[] ?]; reflexivity|].
  destruct (streq "bdi" sub); [reflexivity|].
  destruct (streq "power_supply" sub); reflexivity.
Qed.

Lemma dispatch_uevent_trace (event : uevent) (st : state) :
  exists tr,
    calls (snd (dispatch_uevent event st)) = (calls st ++ tr)%list
    /\ one_event tr.
Proof.
  rewrite dispatch_uevent_state.
  destruct (subsystem event) as [|sub|];
    [unfold one_event; explicit_trace| |unfold one_event; explicit_trace].
  destruct (streq "switch" sub); [apply handle_switch_event_trace|].
  destruct (streq "battery" sub); [unfold one_event; explicit_trace|].
  destruct (streq "mmc" sub); [apply handle_mmc_event_trace|].
  destruct (streq "block" sub); [apply handle_block_event_trace|].
  unfold one_event; explicit_trace.
Qed.

Lemma dispatch_all_trace (events : list uevent) :
  forall st,
  exists tr,
    calls (snd (dispatch_all events st)) = (calls st ++ tr)%list
    /\ guarded tr
    /\ (count is_consider_disk tr <= List.length events)%nat
    /\ count is_destroy tr = 0%nat.
Proof.
  induction events as [|event rest IH]; intros st.
  - exists []. cbn. rewrite app_nil_r. repeat split; side.
  - destruct (dispatch_uevent_trace event st) as (tr & E & G & Hc & Hd & _).
    cbn [dispatch_all]. unfold_monad.
    destruct (dispatch_uevent event st) as [[rc|rc|] st1]; cbn [snd] in E;
      try (exists tr; cbn [snd List.length]; repeat split;
           (assumption || lia)).
    destruct (IH st1) as (tr' & E' & G' & Hc' & Hd').
    destruct (dispatch_all rest st1) as [[rcs|rc'|] st2]; cbn [snd] in E' |- *;
      (exists (tr ++ tr')%list; rewrite E', E, app_assoc;
       split; [reflexivity|]; split; [apply guarded_app; assumption|];
       rewrite !count_app; cbn [List.length]; split; lia).
Qed.

(** *** The block handler's first step *)

Lemma block_event_prefix (event : uevent) (st : state) (v : string) (n : Z) :
  get_uevent_param event "DEVTYPE" = Str v ->
  depth v = Some n ->
  resolves_media_at event st n.
Proof.
  intros Hv Hn. unfold resolves_media_at. cbv zeta.
  rewrite handle_block_event_cases, Hv, Hn. cbv zeta.
  destruct (media_lookup_by_path (Str (truncate_sysfs_path (path event) n))
              false (ext st)) as [m|]; [|eexists; trace].
  destruct (get_uevent_param event "MAJOR") as [|a|]; try (eexists; trace).
  destruct (get_uevent_param event "MINOR") as [|b|]; try (eexists; trace).
  destruct (action event).
  - match goal with
    | |- context [fn ?body ?s] =>
        destruct (block_add_trace event m (atoi a) (atoi b) s)
          as (_ & tr & E & _)
    end.
    exists tr. apply since_app. rewrite E. calls_eq.
  - rewrite block_remove_cases. cbv zeta.
    match goal with
    | |- context [blkdev_lookup_by_devno ?x ?y ?w] =>
        destruct (blkdev_lookup_by_devno x y w) as [dev|]
    end; eexists; trace.
  - eexists; trace.
Qed.

(** C6: the block handler reads DEVTYPE; for "disk" it truncates the
    event path at depth 2 and for "partition" at depth 3, and looks the
    result up as the media-backing path; for any other value it returns
    [-EINVAL] with the state untouched: no collaborator was called. *)
Theorem block_event_devtype (event : uevent) (st : state) (v : string) :
  get_uevent_param event "DEVTYPE" = Str v ->
  (v = "disk" -> resolves_media_at event st 2)
  /\ (v = "partition" -> resolves_media_at event st 3)
  /\ (v <> "disk" -> v <> "partition" ->
      handle_block_event event st = (Val (- EINVAL), st)).
Proof.
  intros Hv. repeat split.
  - intros ->. apply (block_event_prefix event st "disk"); [exact Hv | reflexivity].
  - intros ->. apply (block_event_prefix event st "partition");
      [exact Hv | reflexivity].
  - intros H1 H2. rewrite handle_block_event_cases, Hv.
    unfold depth. rewrite (streq_neq _ _ H1), (streq_neq _ _ H2). reflexivity.
Qed.

(** *** Remove *)

Lemma depth_known (v : string) :
  v = "disk" \/ v = "partition" -> exists n, depth v = Some n.
Proof. intros [->| ->]; eexists; reflexivity. Qed.

(** A Remove for a (major, minor) that is not registered. *)
Lemma block_remove_unknown (event : uevent) (st : state) (v a b : string) :
  action event = action_remove ->
  get_uevent_param event "DEVTYPE" = Str v ->
  v = "disk" \/ v = "partition" ->
  get_uevent_param event "MAJOR" = Str a ->
  get_uevent_param event "MINOR" = Str b ->
  blkdev_lookup_by_devno (atoi a) (atoi b) (ext st) = None ->
  fst (handle_block_event event st) = Val 0
  /\ ext (snd (handle_block_event event st)) = ext st
  /\ host_connected (snd (handle_block_event event st)) = host_connected st
  /\ ums_enabled (snd (handle_block_event event st)) = ums_enabled st
  /\ count is_notify_eject (since st (snd (handle_block_event event st))) = 0%nat
  /\ count is_destroy (since st (snd (handle_block_event event st))) = 0%nat.
Proof.
  intros Hact Hv Hd Ha Hb Hnone.
  destruct (depth_known v Hd) as [n Hn].
  rewrite handle_block_event_cases, Hv, Hn. cbv zeta.
  destruct (media_lookup_by_path (Str (truncate_sysfs_path (path event) n))
              false (ext st)) as [m|].
  - rewrite Ha, Hb, Hact, block_remove_cases. cbv zeta.
    cbn [ext log]. rewrite Hnone.
    repeat split; erewrite since_app by calls_eq; reflexivity.
  - repeat split; erewrite since_app by calls_eq; reflexivity.
Qed.

(** A Remove for a registered (major, minor) whose Media is tracked. *)
Lemma block_remove_known (event : uevent) (st : state) (v a b : string)
    (n : Z) (media : media_t) (dev : blkdev_t) :
  action event = action_remove ->
  get_uevent_param event "DEVTYPE" = Str v ->
  depth v = Some n ->
  media_lookup_by_path (Str (truncate_sysfs_path (path event) n)) false (ext st)
  = Some media ->
  get_uevent_param event "MAJOR" = Str a ->
  get_uevent_param event "MINOR" = Str b ->
  blkdev_lookup_by_devno (atoi a) (atoi b) (ext st) = Some dev ->
  let eject := volmgr_notify_eject dev cb_blkdev_ok_to_destroy (ext st) in
  fst (handle_block_event event st) = Val 0
  /\ ext (snd (handle_block_event event st)) = snd eject
  /\ filter is_notify_eject (since st (snd (handle_block_event event st)))
     = [Volmgr_notify_eject dev cb_blkdev_ok_to_destroy (fst eject)]
  /\ count is_destroy (since st (snd (handle_block_event event st))) = 0%nat.
Proof.
  intros Hact Hv Hn Hm Ha Hb Hdev.
  rewrite handle_block_event_cases, Hv, Hn. cbv zeta.
  rewrite Hm, Ha, Hb, Hact, block_remove_cases. cbv zeta.
  cbn [ext log]. rewrite Hdev.
  repeat split; erewrite since_app by calls_eq; reflexivity.
Qed.

Lemma cb_blkdev_ok_to_destroy_cases (dev : blkdev_t) (st : state) :
  _cb_blkdev_ok_to_destroy dev st =
  let media := media_lookup_by_dev dev (ext st) in
  let st1 := log (Media_lookup_by_dev dev media) st in
  match media with
  | Some media =>
      let w := media_remove_blkdev media dev (ext st) in
      (Val tt, log (Blkdev_destroy dev)
                 (set_ext (blkdev_destroy dev w)
                    (log (Media_remove_blkdev media dev) (set_ext w st1))))
  | None =>
      (Val tt, log (Blkdev_destroy dev)
                 (set_ext (blkdev_destroy dev (ext st)) st1))
  end.
Proof.
  unfold _cb_blkdev_ok_to_destroy. unfold_monad. cbn.
  destruct (media_lookup_by_dev dev (ext st)); reflexivity.
Qed.

(** C1, amended: for a block Remove event whose DEVTYPE is "disk" or
    "partition": if no BlockDevice is registered under its (major, minor)
    the handler returns 0, leaves the world and the flags as they were and
    notifies nobody; if one is registered and the truncated path has a
    tracked Media, the handler returns 0 after exactly one
    [volmgr_notify_eject] call, for that BlockDevice with
    [_cb_blkdev_ok_to_destroy] as completion; if the truncated path has no
    tracked Media the handler returns 0 and notifies nobody, whatever is
    registered.  No block event makes the
    handler call [blkdev_destroy] or [media_remove_blkdev], nor does any
    sequence of dispatched events; the completion does: it detaches the BlockDevice from its Media, if it has one, and
    ends with [blkdev_destroy]. *)
Theorem eject_defers_destroy :
  (forall event st v a b,
     action event = action_remove ->
     get_uevent_param event "DEVTYPE" = Str v ->
     v = "disk" \/ v = "partition" ->
     get_uevent_param event "MAJOR" = Str a ->
     get_uevent_param event "MINOR" = Str b ->
     blkdev_lookup_by_devno (atoi a) (atoi b) (ext st) = None ->
     fst (handle_block_event event st) = Val 0
     /\ ext (snd (handle_block_event event st)) = ext st
     /\ host_connected (snd (handle_block_event event st)) = host_connected st
     /\ ums_enabled (snd (handle_block_event event st)) = ums_enabled st
     /\ count is_notify_eject (since st (snd (handle_block_event event st)))
        = 0%nat)
  /\ (forall event st v a b n media dev,
        action event = action_remove ->
        get_uevent_param event "DEVTYPE" = Str v ->
        depth v = Some n ->
        media_lookup_by_path (Str (truncate_sysfs_path (path event) n)) false
          (ext st) = Some media ->
        get_uevent_param event "MAJOR" = Str a ->
        get_uevent_param event "MINOR" = Str b ->
        blkdev_lookup_by_devno (atoi a) (atoi b) (ext st) = Some dev ->
        fst (handle_block_event event st) = Val 0
        /\ filter is_notify_eject (since st (snd (handle_block_event event st)))
           = [Volmgr_notify_eject dev cb_blkdev_ok_to_destroy
                (fst (volmgr_notify_eject dev cb_blkdev_ok_to_destroy (ext st)))])
  /\ (forall event st v n,
        get_uevent_param event "DEVTYPE" = Str v ->
        depth v = Some n ->
        media_lookup_by_path (Str (truncate_sysfs_path (path event) n)) false
          (ext st) = None ->
        fst (handle_block_event event st) = Val 0
        /\ ext (snd (handle_block_event event st)) = ext st
        /\ count is_notify_eject (since st (snd (handle_block_event event st)))
           = 0%nat)
  /\ (forall event st,
        count is_destroy (since st (snd (handle_block_event event st))) = 0%nat)
  /\ (forall events st,
        count is_destroy (since st (snd (dispatch_all events st))) = 0%nat)
  /\ (forall dev st,
        exists before,
          since st (snd (_cb_blkdev_ok_to_destroy dev st))
          = (before ++ [Blkdev_destroy dev])%list
          /\ forall media,
               media_lookup_by_dev dev (ext st) = Some media ->
               In (Media_remove_blkdev media dev) before).
Proof.
  split; [|split; [|split; [|split; [|split]]]].
  - intros event st v a b Hact Hv Hd Ha Hb Hnone.
    pose proof (block_remove_unknown event st v a b Hact Hv Hd Ha Hb Hnone).
    tauto.
  - intros event st v a b n media dev Hact Hv Hn Hm Ha Hb Hdev.
    pose proof (block_remove_known event st v a b n media dev
                  Hact Hv Hn Hm Ha Hb Hdev) as H.
    cbv zeta in H. tauto.
  - intros event st v n Hv Hn Hm.
    rewrite handle_block_event_cases, Hv, Hn. cbv zeta. rewrite Hm.
    repeat split; erewrite since_app by calls_eq; reflexivity.
  - intros event st.
    destruct (handle_block_event_trace event st) as (tr & E & _ & _ & Hd & _).
    rewrite (since_app _ _ _ E). exact Hd.
  - intros events st.
    destruct (dispatch_all_trace events st) as (tr & E & _ & _ & Hd).
    rewrite (since_app _ _ _ E). exact Hd.
  - intros dev st. rewrite cb_blkdev_ok_to_destroy_cases. cbv zeta.
    destruct (media_lookup_by_dev dev (ext st)) as [m|].
    + exists [Media_lookup_by_dev dev (Some m); Media_remove_blkdev m dev].
      split; [trace|]. intros media E. inversion E; subst. right; left.
      reflexivity.
    + exists [Media_lookup_by_dev dev None].
      split; [trace|]. intros media E. discriminate E.
Qed.

(** C7, amended: an mmc Remove whose device path has no registered Media
    returns -1, an error; a block Remove whose DEVTYPE is "disk" or
    "partition" and whose (major, minor) has no registered BlockDevice
    returns 0.  Neither changes the world.  A block Remove with any other
    DEVTYPE returns [-EINVAL] before the registry is looked at, whatever is
    registered. *)
Theorem remove_not_found_differs :
  (forall event st,
     action event = action_remove ->
     media_lookup_by_path (path event) false (ext st) = None ->
     fst (handle_mmc_event event st) = Val (-1)
     /\ ext (snd (handle_mmc_event event st)) = ext st)
  /\ (forall event st v a b,
        action event = action_remove ->
        get_uevent_param event "DEVTYPE" = Str v ->
        v = "disk" \/ v = "partition" ->
        get_uevent_param event "MAJOR" = Str a ->
        get_uevent_param event "MINOR" = Str b ->
        blkdev_lookup_by_devno (atoi a) (atoi b) (ext st) = None ->
        fst (handle_block_event event st) = Val 0
        /\ ext (snd (handle_block_event event st)) = ext st)
  /\ (forall event st v,
        action event = action_remove ->
        get_uevent_param event "DEVTYPE" = Str v ->
        v <> "disk" ->
        v <> "partition" ->
        handle_block_event event st = (Val (- EINVAL), st)).
Proof.
  split; [|split].
  - intros event st Hact Hnone.
    rewrite handle_mmc_event_cases, Hact. cbv zeta. rewrite Hnone.
    split; reflexivity.
  - intros event st v a b Hact Hv Hd Ha Hb Hnone.
    pose proof (block_remove_unknown event st v a b Hact Hv Hd Ha Hb Hnone).
    tauto.
  - intros event st v _ Hv H1 H2. rewrite handle_block_event_cases, Hv.
    unfold depth. rewrite (streq_neq _ _ H1), (streq_neq _ _ H2). reflexivity.
Qed.

(** *** Add *)


(** *** Parameters the handlers read *)

Lemma get_param_from_absent (name : string) (slots : list (option string)) :
  (forall p, In p (until_null slots) -> starts_with name p = false) ->
  get_param_from slots name = NULL.
Proof.
  induction slots as [|[p|] rest IH]; intros H; cbn; try reflexivity.
  rewrite (H p) by (left; reflexivity).
  apply IH. intros q Hq. apply H. right. exact Hq.
Qed.

Lemma handle_block_event_total (event : uevent) (st : state) (v a b : string) :
  get_uevent_param event "DEVTYPE" = Str v ->
  get_uevent_param event "MAJOR" = Str a ->
  get_uevent_param event "MINOR" = Str b ->
  fst (handle_block_event event st) <> Fault.
Proof.
  intros Hv Ha Hb. rewrite handle_block_event_cases, Hv, Ha, Hb.
  destruct (depth v) as [n|]; [|discriminate]. cbv zeta.
  destruct (media_lookup_by_path (Str (truncate_sysfs_path (path event) n))
              false (ext st)) as [m|]; [|discriminate].
  destruct (action event).
  - apply block_add_trace.
  - rewrite block_remove_cases. cbv zeta.
    match goal with
    | |- context [blkdev_lookup_by_devno ?x ?y ?w] =>
        destruct (blkdev_lookup_by_devno x y w) as [dev|]
    end; discriminate.
  - discriminate.
Qed.

Lemma offset_not_null (n : nat) (s : string) : offset n s <> NULL.
Proof.
  revert s. induction n as [|n IH]; intros s; cbn; [discriminate|].
  destruct s; [discriminate | apply IH].
Qed.

Lemma get_param_from_null (name : string) (slots : list (option string)) :
  get_param_from slots name = NULL ->
  forall p, In p (until_null slots) -> starts_with name p = false.
Proof.
  induction slots as [|[q|] rest IH]; cbn; intros H p Hin; try contradiction.
  destruct (starts_with name q) eqn:E.
  - exfalso. exact (offset_not_null _ _ H).
  - destruct Hin as [<-|Hin]; [exact E | exact (IH H p Hin)].
Qed.

(** C9, amended: [get_uevent_param] returns [NULL] exactly when no string
    of [params] starts with the key, and the handlers use what it returns
    without a check.  The switch handler faults without SWITCH_NAME, and
    without SWITCH_STATE when the switch is "usb_mass_storage"; for any other
    switch it returns 0 whether SWITCH_STATE is there or not.  The block
    handler faults without DEVTYPE, and without MAJOR or MINOR once the Media
    is found; when no Media is tracked it returns 0 without reading them.
    The mmc add handler faults without MMC_TYPE and hands MMC_NAME, null or
    not, on to [media_create] without reading it.  The switch and the block
    handler do not fault when their keys occur, the mmc add handler when
    MMC_TYPE occurs. *)
Theorem handlers_presuppose_params :
  (forall event name,
     get_uevent_param event name = NULL
     <-> (forall p, In p (params event) -> starts_with name p = false))
  /\ (forall event st,
        (get_uevent_param event "SWITCH_NAME" = NULL ->
         fst (handle_switch_event event st) = Fault)
        /\ (get_uevent_param event "SWITCH_NAME" = Str "usb_mass_storage" ->
            get_uevent_param event "SWITCH_STATE" = NULL ->
            fst (handle_switch_event event st) = Fault)
        /\ (forall name,
              get_uevent_param event "SWITCH_NAME" = Str name ->
              name <> "usb_mass_storage" ->
              handle_switch_event event st = (Val 0, st))
        /\ (occurs event "SWITCH_NAME" ->
            occurs event "SWITCH_STATE" ->
            fst (handle_switch_event event st) = Val 0))
  /\ (forall event st,
        (get_uevent_param event "DEVTYPE" = NULL ->
         fst (handle_block_event event st) = Fault)
        /\ (forall v n media,
              get_uevent_param event "DEVTYPE" = Str v ->
              depth v = Some n ->
              media_lookup_by_path (Str (truncate_sysfs_path (path event) n))
                false (ext st) = Some media ->
              get_uevent_param event "MAJOR" = NULL
              \/ get_uevent_param event "MINOR" = NULL ->
              fst (handle_block_event event st) = Fault)
        /\ (forall v n,
              get_uevent_param event "DEVTYPE" = Str v ->
              depth v = Some n ->
              media_lookup_by_path (Str (truncate_sysfs_path (path event) n))
                false (ext st) = None ->
              fst (handle_block_event event st) = Val 0)
        /\ (occurs event "DEVTYPE" ->
            occurs event "MAJOR" ->
            occurs event "MINOR" ->
            fst (handle_block_event event st) <> Fault))
  /\ (forall event st,
        action event = action_add ->
        (get_uevent_param event "MMC_TYPE" = NULL ->
         fst (handle_mmc_event event st) = Fault)
        /\ (forall type name,
              get_uevent_param event "MMC_TYPE" = Str type ->
              type = "SD" \/ type = "MMC" ->
              get_uevent_param event "MMC_NAME" = name ->
              fst (handle_mmc_event event st) <> Fault
              /\ exists serial r,
                   In (Media_create (path event) name serial r)
                      (since st (snd (handle_mmc_event event st))))
        /\ (occurs event "MMC_TYPE" ->
            fst (handle_mmc_event event st) <> Fault)).
Proof.
  split; [|split; [|split]].
  - intros event name. split.
    + apply get_param_from_null.
    + apply get_param_from_absent.
  - intros event st. rewrite handle_switch_event_cases.
    split; [|split; [|split]].
    + intros ->. reflexivity.
    + intros -> ->. reflexivity.
    + intros name -> Hne. rewrite (streq_neq _ _ Hne). reflexivity.
    + intros Hn Hs. apply occurs_found in Hn, Hs.
      destruct Hn as [name ->]. destruct Hs as [s ->].
      destruct (streq name "usb_mass_storage"); reflexivity.
  - intros event st. split; [|split; [|split]].
    + intros H. rewrite handle_block_event_cases, H. reflexivity.
    + intros v n media Hv Hn Hm H.
      rewrite handle_block_event_cases, Hv, Hn. cbv zeta. rewrite Hm.
      destruct H as [H|H]; rewrite H; [reflexivity|].
      destruct (get_uevent_param event "MAJOR"); reflexivity.
    + intros v n Hv Hn Hm.
      rewrite handle_block_event_cases, Hv, Hn. cbv zeta. rewrite Hm.
      reflexivity.
    + intros Hv Ha Hb. apply occurs_found in Hv, Ha, Hb.
      destruct Hv as [v Hv]. destruct Ha as [a Ha]. destruct Hb as [b Hb].
      apply (handle_block_event_total event st v a b); assumption.
  - intros event st Hact. rewrite handle_mmc_event_cases, Hact.
    split; [|split].
    + intros ->. reflexivity.
    + intros type name -> Ht ->.
      assert (E : (negb (streq type "SD") && negb (streq type "MMC"))%bool
                  = false)
        by (destruct Ht as [->| ->]; reflexivity).
      rewrite E. cbv zeta. split; [discriminate|]. do 2 eexists.
      erewrite since_app by calls_eq. right; left. reflexivity.
    + intros Ht. apply occurs_found in Ht. destruct Ht as [type ->].
      destruct (negb (streq type "SD") && negb (streq type "MMC"))%bool;
        discriminate.
Qed.

End HandlerProofs.

(** ** The handlers in the modelled world *)

Import SpecWorld.

Example disk_first_considered_once :
  fst (dispatch_all (C := collaborators) disk_first inserted) = Val [0; 0; 0]
  /\ count is_consider_disk (since inserted (run disk_first inserted)) = 1%nat
  /\ count is_consider_disk (since inserted one_left) = 0%nat
  /\ considered (ext (run disk_first inserted)) = [(179, 0)].
Proof. vm_compute. repeat split. Qed.

Example eject_then_completion :
  let st := snd (handle_block_event (disk_ev action_remove) with_disk) in
  lookup_by_devno 179 0 (ext st) = Some (179, 0)
  /\ ejecting (ext st) = [(179, 0)]
  /\ lookup_by_devno 179 0
       (ext (snd (_cb_blkdev_ok_to_destroy (C := collaborators) (179, 0) st)))
     = None.
Proof. vm_compute. repeat split. Qed.

(** The Remove of the registered disk 179:0 of the inserted card. *)
Lemma eject_defers_destroy_witness :
  fst (handle_block_event (disk_ev action_remove) with_disk) = Val 0
  /\ filter is_notify_eject
       (since with_disk (snd (handle_block_event (disk_ev action_remove)
                                with_disk)))
     = [Volmgr_notify_eject (C := collaborators) (179, 0)
          cb_blkdev_ok_to_destroy 0].
Proof.
  exact (proj1 (proj2 (@eject_defers_destroy collaborators))
           (disk_ev action_remove) with_disk "disk" "179" "0" 2 card (179, 0)
           eq_refl eq_refl eq_refl eq_refl eq_refl eq_refl eq_refl).
Defined.

(** C1 as stated fails: a Remove for the registered BlockDevice 179:0
    whose Media is no longer tracked returns 0 without any
    [volmgr_notify_eject] call, and a Remove with DEVTYPE "cdrom" for an
    unregistered (major, minor) returns [-EINVAL], not success. *)
Lemma remove_not_always_notified :
  (action (disk_ev action_remove) = action_remove
   /\ lookup_by_devno 179 0 (ext orphaned) = Some (179, 0)
   /\ fst (handle_block_event (disk_ev action_remove) orphaned) = Val 0
   /\ count is_notify_eject
        (since orphaned (snd (handle_block_event (disk_ev action_remove)
                                orphaned))) = 0%nat)
  /\ (action cdrom_remove = action_remove
      /\ lookup_by_devno 22 0 (ext start) = None
      /\ fst (handle_block_event cdrom_remove start) = Val (-22)).
Proof. vm_compute. repeat split. Qed.


(** The Add of the disk of the inserted card. *)
Lemma block_event_devtype_witness :
  resolves_media_at (C := collaborators) (disk_ev action_add) inserted 2.
Proof.
  exact (proj1 (@block_event_devtype collaborators (disk_ev action_add)
                  inserted "disk" eq_refl) eq_refl).
Defined.

(** The card's Remove before it was ever inserted, and its disk's Remove
    before the disk was announced. *)
Lemma remove_not_found_differs_witness :
  (fst (handle_mmc_event mmc_remove start) = Val (-1)
   /\ ext (snd (handle_mmc_event mmc_remove start)) = ext start)
  /\ (fst (handle_block_event (disk_ev action_remove) inserted) = Val 0
      /\ ext (snd (handle_block_event (disk_ev action_remove) inserted))
         = ext inserted)
  /\ handle_block_event cdrom_remove inserted = (Val (- EINVAL), inserted).
Proof.
  split; [|split].
  - exact (proj1 (@remove_not_found_differs collaborators)
             mmc_remove start eq_refl eq_refl).
  - exact (proj1 (proj2 (@remove_not_found_differs collaborators))
             (disk_ev action_remove) inserted "disk" "179" "0"
             eq_refl eq_refl (or_introl eq_refl) eq_refl eq_refl eq_refl).
  - apply (proj2 (proj2 (@remove_not_found_differs collaborators))
             cdrom_remove inserted "cdrom" eq_refl eq_refl);
      discriminate.
Defined.

(** C7 as stated fails: the Remove of a cdrom whose (major, minor) 22:0
    has no registered BlockDevice returns [-EINVAL], an error like the one of
    the mmc handler, not success, before the card is inserted and while it
    is. *)
Lemma unknown_block_remove_may_fail :
  action cdrom_remove = action_remove
  /\ subsystem cdrom_remove = Str "block"
  /\ get_uevent_param cdrom_remove "MAJOR" = Str "22"
  /\ get_uevent_param cdrom_remove "MINOR" = Str "0"
  /\ lookup_by_devno 22 0 (ext start) = None
  /\ fst (dispatch_uevent (C := collaborators) cdrom_remove start) = Val (-22)
  /\ lookup_by_devno 22 0 (ext inserted) = None
  /\ fst (handle_block_event cdrom_remove inserted) = Val (-22).
Proof. vm_compute. repeat split. Qed.

(** A switch event without SWITCH_NAME, and the Add of the disk with its
    three keys. *)
Lemma handlers_presuppose_params_witness :
  get_uevent_param bare_switch "SWITCH_NAME" = NULL
  /\ fst (handle_switch_event bare_switch start) = Fault
  /\ fst (handle_block_event (disk_ev action_add) inserted) <> Fault.
Proof.
  split; [|split].
  - apply (proj1 (@handlers_presuppose_params collaborators)).
    intros p [<-|[]]. reflexivity.
  - apply (proj1 (proj1 (proj2 (@handlers_presuppose_params collaborators))
                    bare_switch start)).
    reflexivity.
  - apply (proj2 (proj2 (proj2 (proj1 (proj2 (proj2
             (@handlers_presuppose_params collaborators)))
             (disk_ev action_add) inserted)))).
    + exists [], "disk", (skipn 1 (param (disk_ev action_add))).
      split; [reflexivity|]. split; [unfold UEVENT_PARAMS_MAX; simpl; lia|].
      intros p H; destruct H.
    + exists ["DEVTYPE=disk"], "179", (skipn 2 (param (disk_ev action_add))).
      split; [reflexivity|]. split; [unfold UEVENT_PARAMS_MAX; simpl; lia|].
      intros p [<-|[]]; reflexivity.
    + exists ["DEVTYPE=disk"; "MAJOR=179"], "0",
        (skipn 3 (param (disk_ev action_add))).
      split; [reflexivity|]. split; [unfold UEVENT_PARAMS_MAX; simpl; lia|].
      intros p [<-|[<-|[]]]; reflexivity.
Defined.

(** C9 as stated fails.  No string of [switch_names] is SWITCH_NAME=value,
    yet [get_uevent_param] does not return [NULL] for that key: it takes
    "SWITCH_NAMES=x" for it.  And handlers run to their end without the keys
    the claim names: the switch handler without SWITCH_STATE, for a switch
    other than "usb_mass_storage"; the block handler without MAJOR and MINOR,
    when no Media is tracked; the mmc add handler without MMC_NAME, which it
    hands on as a null pointer. *)
Lemma handlers_run_without_keys :
  (existsb (starts_with "SWITCH_NAME=") (params switch_names) = false
   /\ get_uevent_param switch_names "SWITCH_NAME" = Str "=x"
   /\ handle_switch_event switch_names start = (Val 0, start))
  /\ (get_uevent_param h2w_switch "SWITCH_STATE" = NULL
      /\ handle_switch_event h2w_switch start = (Val 0, start))
  /\ (get_uevent_param bare_disk_add "MAJOR" = NULL
      /\ get_uevent_param bare_disk_add "MINOR" = NULL
      /\ fst (handle_block_event bare_disk_add start) = Val 0)
  /\ (get_uevent_param nameless_card "MMC_NAME" = NULL
      /\ fst (handle_mmc_event nameless_card start) = Val 0
      /\ In (Media_create (C := collaborators) (Str card) NULL "0" (Some card))
            (calls (snd (handle_mmc_event nameless_card start)))).
Proof. vm_compute. repeat split. right; left. reflexivity. Qed.

(** The switch going offline while mass storage is shared. *)
Lemma host_disconnect_disables_ums_witness :
  fst (handle_switch_event usb_offline sharing) = Val 0
  /\ host_connected (snd (handle_switch_event usb_offline sharing)) = false
  /\ ums_enabled (snd (handle_switch_event usb_offline sharing)) = false.
Proof.
  apply (proj2 (proj2 (@host_disconnect_disables_ums collaborators))
           usb_offline sharing "offline").
  - reflexivity.
  - reflexivity.
  - discriminate.
Defined.

(** ** Further properties of the parser *)

Lemma parse_field_keeps_path (f : string) (event event' : uevent)
    (idx idx' : nat) :
  parse_field f event idx = Some (event', idx') -> path event' = path event.
Proof.
  unfold parse_field.
  destruct (starts_with "ACTION=" f).
  { destruct (offset 7 f) as [|a|]; try (intros E; inversion E; reflexivity).
    destruct (streq a "add"); [intros E; inversion E; reflexivity|].
    destruct (streq a "change"); [intros E; inversion E; reflexivity|].
    destruct (streq a "remove"); intros E; inversion E; reflexivity. }
  destruct (starts_with "SEQNUM=" f).
  { destruct (offset 7 f); intros E; inversion E; reflexivity. }
  destruct (starts_with "SUBSYSTEM=" f); [intros E; inversion E; reflexivity|].
  destruct (idx <? UEVENT_PARAMS_MAX)%nat; intros E; inversion E; reflexivity.
Qed.

Lemma parse_field_keeps_subsystem (f : string) (event event' : uevent)
    (idx idx' : nat) :
  starts_with "SUBSYSTEM=" f = false ->
  parse_field f event idx = Some (event', idx') ->
  subsystem event' = subsystem event.
Proof.
  unfold parse_field. intros Hs.
  destruct (starts_with "ACTION=" f).
  { destruct (offset 7 f) as [|a|]; try (intros E; inversion E; reflexivity).
    destruct (streq a "add"); [intros E; inversion E; reflexivity|].
    destruct (streq a "change"); [intros E; inversion E; reflexivity|].
    destruct (streq a "remove"); intros E; inversion E; reflexivity. }
  destruct (starts_with "SEQNUM=" f).
  { destruct (offset 7 f); intros E; inversion E; reflexivity. }
  rewrite Hs.
  destruct (idx <? UEVENT_PARAMS_MAX)%nat; intros E; inversion E; reflexivity.
Qed.

Lemma store_next (done : list string) (f : string) (k : nat) :
  store (List.length done) (Some f) (map Some done ++ repeat None (S k))
  = (map Some (done ++ [f]) ++ repeat None k)%list.
Proof.
  induction done as [|x done IH]; cbn [List.length map app store repeat].
  - reflexivity.
  - f_equal. exact IH.
Qed.

(** The array that holds the strings of [l] in its first slots. *)
Lemma until_null_padded (l : list string) :
  (List.length l <= UEVENT_PARAMS_MAX)%nat ->
  until_null (firstn UEVENT_PARAMS_MAX
                (map Some l ++ repeat None (UEVENT_PARAMS_MAX - List.length l)))
  = l.
Proof.
  intros Hlen.
  rewrite firstn_all2
    by (rewrite length_app, length_map, repeat_length; lia).
  generalize (UEVENT_PARAMS_MAX - List.length l)%nat as k. clear Hlen.
  induction l as [|x l IH]; intros k; cbn [map app until_null].
  - destruct k; reflexivity.
  - f_equal. apply IH.
Qed.

(** The loop fills the array in arrival order while there is room. *)
Lemma parse_fields_params (fields : list string) :
  forall event done,
    param event
    = (map Some done ++ repeat None (UEVENT_PARAMS_MAX - List.length done))%list ->
    (List.length done + List.length (filter is_param fields)
     <= UEVENT_PARAMS_MAX)%nat ->
    exists event',
      parse_fields fields event (List.length done) = Parsed event'
      /\ path event' = path event
      /\ param event'
         = (map Some (done ++ filter is_param fields)
            ++ repeat None (UEVENT_PARAMS_MAX
                            - List.length (done ++ filter is_param fields)))%list.
Proof.
  induction fields as [|f rest IH]; intros event done Hp Hlen.
  - exists event. cbn [parse_fields filter]. rewrite app_nil_r. auto.
  - cbn [parse_fields filter] in *. destruct (is_param f) eqn:Hf.
    + rewrite (parse_field_param _ _ _ Hf). cbn [List.length] in Hlen.
      destruct (List.length done <? UEVENT_PARAMS_MAX)%nat eqn:Hlt;
        [|apply Nat.ltb_ge in Hlt; lia].
      destruct (IH (set_param event
                      (store (List.length done) (Some f) (param event)))
                   (done ++ [f])%list) as (e' & E & P & Q).
      * cbn [param set_param]. rewrite Hp.
        destruct (UEVENT_PARAMS_MAX - List.length done)%nat as [|k] eqn:Ek;
          [lia|].
        rewrite store_next. do 2 f_equal. rewrite length_app.
        cbn [List.length]. lia.
      * rewrite length_app. cbn [List.length]. lia.
      * exists e'. replace (S (List.length done))
          with (List.length (done ++ [f])%list)
          by (rewrite length_app; cbn [List.length]; lia).
        rewrite <- app_assoc in Q. cbn [app] in Q. auto.
    + destruct (parse_field_dedicated f event (List.length done) Hf)
        as (e1 & E1 & P1).
      pose proof (parse_field_keeps_path _ _ _ _ _ E1) as Q1.
      rewrite E1.
      destruct (IH e1 done) as (e' & E & P & Q); [congruence | exact Hlen |].
      exists e'. split; [exact E|]. split; [congruence | exact Q].
Qed.

(** X1: a message of terminated strings whose first string holds '@' and
    which carries at most 32 strings other than ACTION=, SEQNUM= and
    SUBSYSTEM= is parsed into an event whose path is what follows the first
    '@' and whose params are exactly those strings, in arrival order. *)
Theorem parse_keeps_params_in_order (a b : string) (fields : list string) :
  has_char "@" a = false ->
  has_char NUL a = false ->
  has_char NUL b = false ->
  nul_free fields ->
  (List.length (filter is_param fields) <= UEVENT_PARAMS_MAX)%nat ->
  exists event,
    parse_uevent (message ((a ++ String "@" b) :: fields)) = Some (Parsed event)
    /\ path event = Str b
    /\ params event = filter is_param fields.
Proof.
  intros Hat Ha Hb Hnul Hlen.
  rewrite (parse_uevent_message a b fields Hat Ha Hb Hnul).
  destruct (parse_fields_params fields (set_path zero_uevent (Str b)) [])
    as (e & E & P & Q); [reflexivity | exact Hlen |].
  exists e. cbn [List.length] in E. rewrite E.
  split; [reflexivity|]. split; [exact P|].
  unfold params. rewrite Q. apply until_null_padded. exact Hlen.
Qed.

Lemma parse_keeps_params_in_order_witness :
  exists event,
    parse_uevent (message ["add@/class/switch/h2w"; "ACTION=add";
                           "SWITCH_NAME=h2w"; "SEQNUM=7"; "SWITCH_STATE=0"])
    = Some (Parsed event)
    /\ path event = Str "/class/switch/h2w"
    /\ params event = ["SWITCH_NAME=h2w"; "SWITCH_STATE=0"].
Proof.
  apply (parse_keeps_params_in_order "add" "/class/switch/h2w"
           ["ACTION=add"; "SWITCH_NAME=h2w"; "SEQNUM=7"; "SWITCH_STATE=0"]).
  - reflexivity.
  - reflexivity.
  - reflexivity.
  - repeat constructor.
  - unfold UEVENT_PARAMS_MAX. simpl. lia.
Defined.

(** X2: in such a message, more than 32 strings for [param] make the
    loop store one outside the array, whatever the strings are. *)
Theorem parse_overflows_params (a b : string) (fields : list string) :
  has_char "@" a = false ->
  has_char NUL a = false ->
  has_char NUL b = false ->
  nul_free fields ->
  (UEVENT_PARAMS_MAX < List.length (filter is_param fields))%nat ->
  parse_uevent (message ((a ++ String "@" b) :: fields)) = Some WritePastParams.
Proof.
  intros Hat Ha Hb Hnul Hlen.
  rewrite (parse_uevent_message a b fields Hat Ha Hb Hnul). f_equal.
  apply parse_fields_overflow; [unfold UEVENT_PARAMS_MAX; lia | exact Hlen].
Qed.

Lemma parse_overflows_params_witness :
  parse_uevent (message ("change@/devices/virtual/misc/x"
                         :: "ACTION=change" :: repeat "KEY=value" 33))
  = Some WritePastParams.
Proof.
  apply (parse_overflows_params "change" "/devices/virtual/misc/x"
           ("ACTION=change" :: repeat "KEY=value" 33)).
  - reflexivity.
  - reflexivity.
  - reflexivity.
  - repeat constructor.
  - unfold UEVENT_PARAMS_MAX. simpl. lia.
Defined.

(** X3: parsing and then looking a key up gives the value of the first
    string that starts with the key: in a message that fits the array, when
    KEY=VALUE is a string for [param] and no string for [param] before it
    starts with KEY, [get_uevent_param] returns VALUE on the parsed event. *)
Theorem parsed_param_is_found (a b key value : string)
    (before after : list string) :
  has_char "@" a = false ->
  has_char NUL a = false ->
  has_char NUL b = false ->
  nul_free (before ++ (key ++ String "=" value)%string :: after) ->
  is_param (key ++ String "=" value) = true ->
  (forall f, In f before -> is_param f = true -> starts_with key f = false) ->
  (List.length (filter is_param
                  (before ++ (key ++ String "=" value)%string :: after))
   <= UEVENT_PARAMS_MAX)%nat ->
  exists event,
    parse_uevent
      (message ((a ++ String "@" b)
                :: before ++ (key ++ String "=" value)%string :: after))
    = Some (Parsed event)
    /\ get_uevent_param event key = Str value.
Proof.
  intros Hat Ha Hb Hnul Hkv Hbefore Hlen.
  rewrite (parse_uevent_message a b _ Hat Ha Hb Hnul).
  destruct (parse_fields_params
              (before ++ (key ++ String "=" value)%string :: after)
              (set_path zero_uevent (Str b)) [])
    as (e & E & _ & Q); [reflexivity | exact Hlen |].
  exists e. cbn [List.length] in E. rewrite E. split; [reflexivity|].
  unfold get_uevent_param. rewrite Q. cbn [app].
  rewrite firstn_all2
    by (rewrite length_app, length_map, repeat_length; lia).
  rewrite filter_app. cbn [filter]. rewrite Hkv.
  rewrite map_app. cbn [map]. rewrite <- app_assoc. cbn [app].
  rewrite get_param_from_skip.
  - apply get_param_from_found.
  - intros p Hp. apply filter_In in Hp. destruct Hp as [Hin Hpar].
    apply Hbefore; assumption.
Qed.

Lemma parsed_param_is_found_witness :
  exists event,
    parse_uevent (message ["add@/block/sda"; "ACTION=add"; "MINOR=0";
                           "MAJOR=8"; "DEVTYPE=disk"])
    = Some (Parsed event)
    /\ get_uevent_param event "MAJOR" = Str "8".
Proof.
  apply (parsed_param_is_found "add" "/block/sda" "MAJOR" "8"
           ["ACTION=add"; "MINOR=0"] ["DEVTYPE=disk"]).
  - reflexivity.
  - reflexivity.
  - reflexivity.
  - repeat constructor.
  - reflexivity.
  - intros f [<-|[<-|[]]] H; [discriminate H | reflexivity].
  - unfold UEVENT_PARAMS_MAX. simpl. lia.
Defined.

(** ** Further properties of dispatch and of the two entry points *)

Lemma starts_with_app (lit s : string) : starts_with lit (lit ++ s) = true.
Proof.
  unfold starts_with. induction lit as [|x lit IH]; cbn.
  - destruct s; reflexivity.
  - rewrite IH. destruct (ascii_dec x x); [reflexivity | congruence].
Qed.

Lemma offset_app (lit s : string) : offset (String.length lit) (lit ++ s) = Str s.
Proof. induction lit as [|x lit IH]; cbn; [reflexivity | exact IH]. Qed.

Lemma parse_fields_keeps_subsystem (fields : list string) :
  forall event idx event',
    (forall f, In f fields -> starts_with "SUBSYSTEM=" f = false) ->
    parse_fields fields event idx = Parsed event' ->
    subsystem event' = subsystem event.
Proof.
  induction fields as [|f rest IH]; intros event idx event' Hno; cbn [parse_fields].
  - intros E. inversion E. reflexivity.
  - destruct (parse_field f event idx) as [[e1 i1]|] eqn:E1; [|discriminate].
    intros E. rewrite (IH e1 i1 event') by (auto using in_cons).
    apply (parse_field_keeps_subsystem f event e1 idx i1); [|exact E1].
    apply Hno. left. reflexivity.
Qed.

(** Strings for [param] only: the event changes in its array alone. *)
Lemma parse_fields_only_params (ps : list string) :
  forall event done,
    Forall (fun p => is_param p = true) ps ->
    param event
    = (map Some done ++ repeat None (UEVENT_PARAMS_MAX - List.length done))%list ->
    (List.length done + List.length ps <= UEVENT_PARAMS_MAX)%nat ->
    parse_fields ps event (List.length done)
    = Parsed (set_param event
                (map Some (done ++ ps)
                 ++ repeat None (UEVENT_PARAMS_MAX - List.length (done ++ ps)))).
Proof.
  induction ps as [|p ps IH]; intros event done Hall Hp Hlen.
  - cbn [parse_fields]. rewrite app_nil_r, <- Hp. destruct event; reflexivity.
  - inversion Hall as [|? ? Hpar Hrest]; subst.
    cbn [parse_fields]. rewrite (parse_field_param _ _ _ Hpar).
    cbn [List.length] in Hlen.
    destruct (List.length done <? UEVENT_PARAMS_MAX)%nat eqn:Hlt;
      [|apply Nat.ltb_ge in Hlt; lia].
    replace (S (List.length done)) with (List.length (done ++ [p])%list)
      by (rewrite length_app; cbn [List.length]; lia).
    rewrite IH.
    + rewrite <- app_assoc. reflexivity.
    + exact Hrest.
    + cbn [param set_param]. rewrite Hp.
      destruct (UEVENT_PARAMS_MAX - List.length done)%nat as [|k] eqn:Ek; [lia|].
      rewrite store_next. do 2 f_equal. rewrite length_app.
      cbn [List.length]. lia.
    + rewrite length_app. cbn [List.length]. lia.
Qed.

Lemma copy_params_firstn (ps : list string) :
  copy_params (firstn UEVENT_PARAMS_MAX ps) = copy_params ps.
Proof. unfold copy_params. rewrite firstn_firstn, Nat.min_id. reflexivity. Qed.

Section EntryPoints.

Context {C : Collaborators}.

Ltac unfold_monad :=
  unfold fn, bind, ret, return_, deref, query, command, command_ in *.

Lemma fn_not_return (body : M Z) (st : state) (rc : Z) :
  fst (fn body st) <> Return rc.
Proof. unfold fn. destruct (body st) as [[v|rc'|] st']; discriminate. Qed.

(** A handler's value and state pass through the table walk unchanged. *)
Lemma through_dispatch (body : M Z) (st : state) :
  fn (v <- fn body ;; return_ v) st = fn body st.
Proof. unfold_monad. destruct (body st) as [[v|rc|] st']; reflexivity. Qed.

Lemma dispatch_uevent_cases (event : uevent) (st : state) :
  dispatch_uevent event st =
  match subsystem event with
  | Str sub =>
      if streq "switch" sub then handle_switch_event event st
      else if streq "battery" sub then (Val 0, st)
      else if streq "mmc" sub then handle_mmc_event event st
      else if streq "block" sub then handle_block_event event st
      else (Val 0, st)
  | _ => (Fault, st)
  end.
Proof.
  unfold dispatch_uevent, dispatch_table, dispatch_from.
  destruct (subsystem event) as [|sub|]; try reflexivity.
  unfold handle_switch_event, handle_battery_event, handle_mmc_event,
    handle_block_event, handle_bdi_event, handle_powersupply_event.
  unfold fn at 1. unfold bind at 1. unfold deref at 1.
  destruct (streq "switch" sub).
  { match goal with
    | |- context [bind (fn ?b) _ st] =>
        pose proof (through_dispatch b st) as H
    end.
    unfold fn at 1 in H. exact H. }
  unfold bind at 1. unfold deref at 1.
  destruct (streq "battery" sub); [reflexivity|].
  unfold bind at 1. unfold deref at 1.
  destruct (streq "mmc" sub).
  { match goal with
    | |- context [bind (fn ?b) _ st] =>
        pose proof (through_dispatch b st) as H
    end.
    unfold fn at 1 in H. exact H. }
  unfold bind at 1. unfold deref at 1.
  destruct (streq "block" sub).
  { match goal with
    | |- context [bind (fn ?b) _ st] =>
        pose proof (through_dispatch b st) as H
    end.
    unfold fn at 1 in H. exact H. }
  unfold bind at 1. unfold deref at 1.
  destruct (streq "bdi" sub); [reflexivity|].
  unfold bind at 1. unfold deref at 1.
  destruct (streq "power_supply" sub); reflexivity.
Qed.

(** X4: [dispatch_uevent] hands an event to the handler registered for
    its subsystem and returns what the handler returns, state included; for
    "battery", "bdi" and "power_supply" that is 0 with the state untouched. *)
Theorem dispatch_routes_by_subsystem (event : uevent) (st : state) :
  (subsystem event = Str "switch" ->
   dispatch_uevent event st = handle_switch_event event st)
  /\ (subsystem event = Str "mmc" ->
      dispatch_uevent event st = handle_mmc_event event st)
  /\ (subsystem event = Str "block" ->
      dispatch_uevent event st = handle_block_event event st)
  /\ (forall sub,
        subsystem event = Str sub ->
        sub = "battery" \/ sub = "bdi" \/ sub = "power_supply" ->
        dispatch_uevent event st = (Val 0, st)).
Proof.
  rewrite dispatch_uevent_cases. repeat split.
  - intros ->. reflexivity.
  - intros ->. reflexivity.
  - intros ->. reflexivity.
  - intros sub -> [->|[->| ->]]; reflexivity.
Qed.

(** X5: an event whose subsystem has no entry in the dispatch table is
    not an error: [dispatch_uevent] returns 0 and nothing changes. *)
Theorem dispatch_unknown_subsystem (event : uevent) (st : state) (sub : string) :
  subsystem event = Str sub ->
  ~ In sub ["switch"; "battery"; "mmc"; "block"; "bdi"; "power_supply"] ->
  dispatch_uevent event st = (Val 0, st).
Proof.
  intros Hs Hn. rewrite dispatch_uevent_cases, Hs.
  assert (H : forall name, In name ["switch"; "battery"; "mmc"; "block";
                                    "bdi"; "power_supply"] ->
                           streq name sub = false).
  { intros name Hin. apply String.eqb_neq. intros ->. contradiction. }
  rewrite !H by (cbn; tauto). reflexivity.
Qed.

(** X6: a received message without a SUBSYSTEM= string leaves
    [event->subsystem] null, and [dispatch_uevent] passes it to [strcmp]:
    [process_uevent_message] faults before any handler runs.  So does an
    empty datagram. *)
Theorem message_without_subsystem_faults (a b : string) (fields : list string)
    (st : state) :
  has_char "@" a = false ->
  has_char NUL a = false ->
  has_char NUL b = false ->
  nul_free fields ->
  (forall f, In f fields -> starts_with "SUBSYSTEM=" f = false) ->
  process_uevent_message (message ((a ++ String "@" b) :: fields)) st
  = (Fault, st)
  /\ process_uevent_message EmptyString st = (Fault, st).
Proof.
  intros Hat Ha Hb Hnul Hno. split; [|reflexivity].
  unfold process_uevent_message.
  rewrite (parse_uevent_message a b fields Hat Ha Hb Hnul).
  destruct (parse_fields fields (set_path zero_uevent (Str b)) 0)
    as [event| |] eqn:E; try reflexivity.
  apply parse_fields_keeps_subsystem in E; [|exact Hno].
  unfold fn. rewrite dispatch_uevent_cases, E. reflexivity.
Qed.

(** X7: [simulate_uevent] refuses an action other than "add", "change"
    and "remove": it returns -1 and dispatches nothing. *)
Theorem simulate_rejects_unknown_action (subsys path action : string)
    (params : list string) (st : state) :
  recognised action = false ->
  simulate_uevent subsys path action params st = (Val (-1), st).
Proof.
  unfold recognised, simulate_uevent. intros H.
  apply orb_false_iff in H. destruct H as [H Hr].
  apply orb_false_iff in H. destruct H as [Ha Hc].
  unfold_monad. rewrite Ha, Hc, Hr. reflexivity.
Qed.

(** X8: [simulate_uevent] reads at most [UEVENT_PARAMS_MAX] entries of
    [params]: the entries beyond the 32nd have no effect. *)
Theorem simulate_ignores_excess_params (subsys path action : string)
    (params : list string) (st : state) :
  simulate_uevent subsys path action params st
  = simulate_uevent subsys path action (firstn UEVENT_PARAMS_MAX params) st.
Proof. unfold simulate_uevent. rewrite copy_params_firstn. reflexivity. Qed.

(** X9: the two entry points agree: a received message made of a first
    string "...@path", "ACTION=" with a recognised action, "SUBSYSTEM=" and
    then at most 32 strings for [param] is handled exactly as
    [simulate_uevent] handles that subsystem, path, action and strings. *)
Theorem process_matches_simulate (a path action subsys : string)
    (params : list string) (st : state) :
  has_char "@" a = false ->
  has_char NUL a = false ->
  has_char NUL path = false ->
  has_char NUL action = false ->
  has_char NUL subsys = false ->
  nul_free params ->
  recognised action = true ->
  Forall (fun p => is_param p = true) params ->
  (List.length params <= UEVENT_PARAMS_MAX)%nat ->
  process_uevent_message
    (message ((a ++ String "@" path)
              :: ("ACTION=" ++ action)
              :: ("SUBSYSTEM=" ++ subsys) :: params)) st
  = simulate_uevent subsys path action params st.
Proof.
  intros Hat Ha Hp Hact Hsub Hnul Hrec Hall Hlen.
  unfold process_uevent_message.
  rewrite (parse_uevent_message a path _ Hat Ha Hp)
    by (repeat constructor; (exact Hact || exact Hsub || exact Hnul)).
  cbn [parse_fields].
  assert (E1 : forall event idx,
             parse_field ("ACTION=" ++ action) event idx
             = Some (set_action event
                       (if streq action "add" then action_add
                        else if streq action "change" then action_change
                        else action_remove), idx)).
  { intros event idx. unfold parse_field.
    rewrite (starts_with_app "ACTION=" action).
    change 7%nat with (String.length "ACTION=").
    rewrite (offset_app "ACTION=" action).
    unfold recognised in Hrec.
    destruct (streq action "add"); [reflexivity|].
    destruct (streq action "change"); [reflexivity|].
    destruct (streq action "remove"); [reflexivity | discriminate Hrec]. }
  assert (E2 : forall event idx,
             parse_field ("SUBSYSTEM=" ++ subsys) event idx
             = Some (set_subsystem event (Str subsys), idx)).
  { intros event idx. unfold parse_field.
    assert (N1 : starts_with "ACTION=" ("SUBSYSTEM=" ++ subsys) = false)
      by reflexivity.
    assert (N2 : starts_with "SEQNUM=" ("SUBSYSTEM=" ++ subsys) = false)
      by reflexivity.
    rewrite N1, N2, (starts_with_app "SUBSYSTEM=" subsys).
    change 10%nat with (String.length "SUBSYSTEM=").
    rewrite (offset_app "SUBSYSTEM=" subsys). reflexivity. }
  rewrite E1, E2.
  rewrite (parse_fields_only_params params _ []);
    [ | exact Hall | reflexivity | exact Hlen ].
  cbn [app]. unfold simulate_uevent, copy_params.
  rewrite firstn_all2 by exact Hlen.
  unfold recognised in Hrec. unfold_monad.
  destruct (streq action "add"); [reflexivity|].
  destruct (streq action "change"); [reflexivity|].
  destruct (streq action "remove"); [reflexivity | discriminate Hrec].
Qed.

End EntryPoints.

(** ** Further properties of the handlers *)

Section HandlerDetails.

Context {C : Collaborators}.

Ltac unfold_monad :=
  unfold fn, bind, ret, return_, deref, query, command, command_ in *.

Ltac calls_eq :=
  cbn [calls log set_ext set_ums_enabled set_host_connected fst snd];
  repeat rewrite <- app_assoc; reflexivity.

Ltac trace := apply since_app; calls_eq.

(** The [action_add] branch, case by case. *)
Lemma block_add_cases (event : uevent) (media : media_t) (maj min : Z)
    (st : state) :
  fn (block_add event media maj min ;;; ret 0) st =
  let disk := blkdev_lookup_by_devno maj 0 (ext st) in
  let found := blkdev_lookup_by_devno maj min (ext st) in
  let st2 := log (Blkdev_lookup_by_devno maj min found)
               (log (Blkdev_lookup_by_devno maj 0 disk) st) in
  match found with
  | Some dev =>
      let w1 := blkdev_devpath_set dev (path event) (ext st) in
      let attach := media_add_blkdev media dev w1 in
      let st4 := log (Media_add_blkdev media dev (fst attach))
                   (set_ext (snd attach)
                      (log (Blkdev_devpath_set dev (path event))
                         (set_ext w1 st2))) in
      if fst attach <? 0 then (Val (fst attach), st4)
      else
        let d := blkdev_disk dev (snd attach) in
        let n := blkdev_get_num_pending_partitions d (snd attach) in
        let st5 := log (Blkdev_get_num_pending_partitions d n) st4 in
        if n =? 0 then
          let c := volmgr_consider_disk d (snd attach) in
          (Val (if fst c <? 0 then fst c else 0),
           log (Volmgr_consider_disk d (fst c)) (set_ext (snd c) st5))
        else (Val 0, st5)
  | None =>
      let type := get_uevent_param event "DEVTYPE" in
      let created :=
        blkdev_create disk (path event) maj min media type (ext st) in
      let st3 := log (Blkdev_create disk (path event) maj min media type
                        (fst created))
                   (set_ext (snd created) st2) in
      match fst created with
      | None => (Val (-1), st3)
      | Some dev =>
          let attach := media_add_blkdev media dev (snd created) in
          (Val (if fst attach <? 0 then fst attach else 0),
           log (Media_add_blkdev media dev (fst attach))
             (set_ext (snd attach) st3))
      end
  end.
Proof.
  unfold block_add. unfold_monad. cbn.
  destruct (blkdev_lookup_by_devno maj min (ext st)) as [dev|]; cbn.
  - destruct (media_add_blkdev media dev
                (blkdev_devpath_set dev (path event) (ext st))) as [rc w].
    cbn. destruct (rc <? 0); cbn; [reflexivity|].
    destruct (blkdev_get_num_pending_partitions (blkdev_disk dev w) w =? 0);
      cbn; [|reflexivity].
    destruct (volmgr_consider_disk (blkdev_disk dev w) w) as [rc' w']. cbn.
    destruct (rc' <? 0); reflexivity.
  - destruct (blkdev_create (blkdev_lookup_by_devno maj 0 (ext st))
                (path event) maj min media
                (get_uevent_param event "DEVTYPE") (ext st)) as [[dev|] w];
      cbn; [|reflexivity].
    destruct (media_add_blkdev media dev w) as [rc w']. cbn.
    destruct (rc <? 0); reflexivity.
Qed.

(** X10: an mmc Add whose MMC_TYPE is neither "SD" nor "MMC" returns 0
    and does nothing: no sysfs read, no Media. *)
Theorem mmc_add_ignores_other_types (event : uevent) (st : state)
    (type : string) :
  action event = action_add ->
  get_uevent_param event "MMC_TYPE" = Str type ->
  type <> "SD" ->
  type <> "MMC" ->
  handle_mmc_event event st = (Val 0, st).
Proof.
  intros Hact Ht H1 H2. rewrite handle_mmc_event_cases, Hact, Ht.
  rewrite (streq_neq _ _ H1), (streq_neq _ _ H2). reflexivity.
Qed.

(** X11: an mmc Add of type "SD" or "MMC" reads the card's "serial"
    attribute and then creates one Media from the event path, the MMC_NAME
    and that serial; it returns -1 when [media_create] fails and 0
    otherwise. *)
Theorem mmc_add_creates_media (event : uevent) (st : state) (type : string) :
  action event = action_add ->
  get_uevent_param event "MMC_TYPE" = Str type ->
  type = "SD" \/ type = "MMC" ->
  let serial := read_sysfs_var (path event) "serial" (ext st) in
  let name := get_uevent_param event "MMC_NAME" in
  let created := media_create (path event) name serial (ext st) in
  fst (handle_mmc_event event st)
  = Val (match fst created with None => -1 | Some _ => 0 end)
  /\ ext (snd (handle_mmc_event event st)) = snd created
  /\ since st (snd (handle_mmc_event event st))
     = [Read_sysfs_var (path event) "serial" serial;
        Media_create (path event) name serial (fst created)].
Proof.
  intros Hact Ht Hty. cbv zeta. rewrite handle_mmc_event_cases, Hact, Ht.
  assert (E : (negb (streq type "SD") && negb (streq type "MMC"))%bool = false)
    by (destruct Hty as [->| ->]; reflexivity).
  rewrite E. cbv zeta. repeat split. trace.
Qed.

(** X12: an mmc Remove whose path has a registered Media destroys that
    Media and returns 0; the BlockDevices attached to it are neither
    detached nor destroyed nor reported to the volume manager. *)
Theorem mmc_remove_destroys_media (event : uevent) (st : state)
    (media : media_t) :
  action event = action_remove ->
  media_lookup_by_path (path event) false (ext st) = Some media ->
  fst (handle_mmc_event event st) = Val 0
  /\ ext (snd (handle_mmc_event event st)) = media_destroy media (ext st)
  /\ since st (snd (handle_mmc_event event st))
     = [Media_lookup_by_path (path event) false (Some media);
        Media_destroy media].
Proof.
  intros Hact Hm. rewrite handle_mmc_event_cases, Hact. cbv zeta. rewrite Hm.
  repeat split. trace.
Qed.

(** X13: a block Add (DEVTYPE "disk" or "partition", Media of the
    truncated path tracked) for a (major, minor) that is not registered
    creates the BlockDevice with, as parent disk, whatever is registered at
    (major, 0).  When [blkdev_create] fails the handler returns -1 and
    attaches nothing; otherwise it attaches the new device to the Media and
    returns the code of [media_add_blkdev] if that is negative, else 0. *)
Theorem block_add_creates_unknown_device (event : uevent) (st : state)
    (v a b : string) (n : Z) (media : media_t) :
  action event = action_add ->
  get_uevent_param event "DEVTYPE" = Str v ->
  depth v = Some n ->
  media_lookup_by_path (Str (truncate_sysfs_path (path event) n)) false (ext st)
  = Some media ->
  get_uevent_param event "MAJOR" = Str a ->
  get_uevent_param event "MINOR" = Str b ->
  blkdev_lookup_by_devno (atoi a) (atoi b) (ext st) = None ->
  let mediapath := truncate_sysfs_path (path event) n in
  let disk := blkdev_lookup_by_devno (atoi a) 0 (ext st) in
  let created :=
    blkdev_create disk (path event) (atoi a) (atoi b) media (Str v) (ext st) in
  let lookups :=
    [Truncate_sysfs_path (path event) n mediapath;
     Media_lookup_by_path (Str mediapath) false (Some media);
     Blkdev_lookup_by_devno (atoi a) 0 disk;
     Blkdev_lookup_by_devno (atoi a) (atoi b) None;
     Blkdev_create disk (path event) (atoi a) (atoi b) media (Str v)
       (fst created)] in
  match fst created with
  | None =>
      fst (handle_block_event event st) = Val (-1)
      /\ ext (snd (handle_block_event event st)) = snd created
      /\ since st (snd (handle_block_event event st)) = lookups
  | Some dev =>
      let attach := media_add_blkdev media dev (snd created) in
      fst (handle_block_event event st)
      = Val (if fst attach <? 0 then fst attach else 0)
      /\ ext (snd (handle_block_event event st)) = snd attach
      /\ since st (snd (handle_block_event event st))
         = (lookups ++ [Media_add_blkdev media dev (fst attach)])%list
  end.
Proof.
  intros Hact Hv Hn Hm Ha Hb Hnone. cbv zeta.
  rewrite handle_block_event_cases, Hv, Hn. cbv zeta.
  rewrite Hm, Ha, Hb, Hact, block_add_cases. cbv zeta.
  cbn [ext log]. rewrite Hnone, Hv.
  destruct (fst (blkdev_create (blkdev_lookup_by_devno (atoi a) 0 (ext st))
                   (path event) (atoi a) (atoi b) media (Str v) (ext st)))
    as [dev|]; repeat split; trace.
Qed.

(** X14: a block Add (DEVTYPE "disk" or "partition", Media of the
    truncated path tracked) for a (major, minor) that is already registered
    creates nothing: it sets the device path of the registered BlockDevice
    to the event path and attaches it to the Media; when
    [media_add_blkdev] fails the handler returns its code and goes no
    further.  What may follow are only the read of the pending-partition
    counter and the hand-over to the volume manager. *)
Theorem block_add_updates_registered_device (event : uevent) (st : state)
    (v a b : string) (n : Z) (media : media_t) (dev : blkdev_t) :
  action event = action_add ->
  get_uevent_param event "DEVTYPE" = Str v ->
  depth v = Some n ->
  media_lookup_by_path (Str (truncate_sysfs_path (path event) n)) false (ext st)
  = Some media ->
  get_uevent_param event "MAJOR" = Str a ->
  get_uevent_param event "MINOR" = Str b ->
  blkdev_lookup_by_devno (atoi a) (atoi b) (ext st) = Some dev ->
  let mediapath := truncate_sysfs_path (path event) n in
  let w := blkdev_devpath_set dev (path event) (ext st) in
  let attach := media_add_blkdev media dev w in
  exists rest,
    since st (snd (handle_block_event event st))
    = ([Truncate_sysfs_path (path event) n mediapath;
        Media_lookup_by_path (Str mediapath) false (Some media);
        Blkdev_lookup_by_devno (atoi a) 0
          (blkdev_lookup_by_devno (atoi a) 0 (ext st));
        Blkdev_lookup_by_devno (atoi a) (atoi b) (Some dev);
        Blkdev_devpath_set dev (path event);
        Media_add_blkdev media dev (fst attach)] ++ rest)%list
    /\ (forall c, In c rest ->
                  exists d r, c = Blkdev_get_num_pending_partitions d r
                              \/ c = Volmgr_consider_disk d r)
    /\ (fst attach < 0 ->
        rest = []
        /\ fst (handle_block_event event st) = Val (fst attach)
        /\ ext (snd (handle_block_event event st)) = snd attach).
Proof.
  intros Hact Hv Hn Hm Ha Hb Hdev. cbv zeta.
  rewrite handle_block_event_cases, Hv, Hn. cbv zeta.
  rewrite Hm, Ha, Hb, Hact, block_add_cases. cbv zeta.
  cbn [ext log]. rewrite Hdev.
  destruct (fst (media_add_blkdev media dev
                   (blkdev_devpath_set dev (path event) (ext st))) <? 0)
    eqn:Erc.
  - exists []. split; [trace|]. split; [intros c []|].
    intros _. repeat split.
  - apply Z.ltb_ge in Erc.
    match goal with
    | |- context [if ?n =? 0 then _ else _] => destruct (n =? 0)
    end.
    + eexists [_; _]. split; [trace|]. split; [|lia].
      intros c [<-|[<-|[]]]; eauto.
    + eexists [_]. split; [trace|]. split; [|lia].
      intros c [<-|[]]; eauto.
Qed.

Lemma handle_block_event_frame (event : uevent) (st : state) :
  host_connected (snd (handle_block_event event st)) = host_connected st
  /\ ums_enabled (snd (handle_block_event event st)) = ums_enabled st
  /\ (forall rc, fst (handle_block_event event st) = Val rc -> rc <= 0)
  /\ (action event = action_change ->
      ext (snd (handle_block_event event st)) = ext st
      /\ forall rc, fst (handle_block_event event st) = Val rc ->
                    rc = 0 \/ rc = - EINVAL).
Proof.
  assert (Leaf : forall (r : res Z) (s : state),
             (forall rc, r = Val rc -> rc = 0 \/ rc = - EINVAL) ->
             ext s = ext st -> host_connected s = host_connected st ->
             ums_enabled s = ums_enabled st ->
             host_connected (snd (r, s)) = host_connected st
             /\ ums_enabled (snd (r, s)) = ums_enabled st
             /\ (forall rc, fst (r, s) = Val rc -> rc <= 0)
             /\ (action event = action_change ->
                 ext (snd (r, s)) = ext st
                 /\ forall rc, fst (r, s) = Val rc ->
                               rc = 0 \/ rc = - EINVAL)).
  { intros r s Hr He Hh Hu. cbn [fst snd]. repeat split; try assumption.
    intros rc E. destruct (Hr rc E) as [->| ->]; unfold EINVAL; lia. }
  rewrite handle_block_event_cases.
  destruct (get_uevent_param event "DEVTYPE") as [|v|];
    try (apply Leaf; [discriminate | reflexivity..]).
  destruct (depth v) as [n|];
    [|apply Leaf; [intros rc E; inversion E; auto | reflexivity..]].
  cbv zeta.
  destruct (media_lookup_by_path (Str (truncate_sysfs_path (path event) n))
              false (ext st)) as [m|];
    [|apply Leaf; [intros rc E; inversion E; auto | reflexivity..]].
  destruct (get_uevent_param event "MAJOR") as [|a|];
    try (apply Leaf; [discriminate | reflexivity..]).
  destruct (get_uevent_param event "MINOR") as [|b|];
    try (apply Leaf; [discriminate | reflexivity..]).
  destruct (action event).
  - rewrite block_add_cases. cbv zeta. cbn [ext log].
    split; [|split; [|split; [|intros H; discriminate H]]].
    + repeat match goal with
             | |- context [match ?x with _ => _ end] => destruct x
             end; reflexivity.
    + repeat match goal with
             | |- context [match ?x with _ => _ end] => destruct x
             end; reflexivity.
    + intros rc.
      repeat match goal with
             | |- context [if ?x <? 0 then _ else _] =>
                 destruct (Z.ltb_spec x 0)
             | |- context [match ?x with _ => _ end] => destruct x
             end; intros E; inversion E; subst; lia.
  - rewrite block_remove_cases. cbv zeta. cbn [ext log].
    destruct (blkdev_lookup_by_devno (atoi a) (atoi b) (ext st));
      (split; [reflexivity|]; split; [reflexivity|];
       split; [intros rc E; inversion E; lia | intros H; discriminate H]).
  - apply Leaf; [intros rc E; inversion E; auto | reflexivity..].
Qed.

Lemma handle_mmc_event_frame (event : uevent) (st : state) :
  host_connected (snd (handle_mmc_event event st)) = host_connected st
  /\ ums_enabled (snd (handle_mmc_event event st)) = ums_enabled st
  /\ (forall rc, fst (handle_mmc_event event st) = Val rc -> rc <= 0).
Proof.
  rewrite handle_mmc_event_cases.
  destruct (action event).
  - destruct (get_uevent_param event "MMC_TYPE") as [|type|];
      try (split; [reflexivity|]; split; [reflexivity|]; discriminate).
    destruct (negb (streq type "SD") && negb (streq type "MMC"))%bool.
    + split; [reflexivity|]. split; [reflexivity|].
      intros rc E. inversion E. lia.
    + cbv zeta. split; [reflexivity|]. split; [reflexivity|].
      intros rc E. inversion E.
      destruct (fst (media_create (path event)
                       (get_uevent_param event "MMC_NAME")
                       (read_sysfs_var (path event) "serial" (ext st))
                       (ext st))); lia.
  - cbv zeta. destruct (media_lookup_by_path (path event) false (ext st));
      (split; [reflexivity|]; split; [reflexivity|];
       intros rc E; inversion E; lia).
  - split; [reflexivity|]. split; [reflexivity|].
    intros rc E. inversion E. lia.
Qed.


(** X16: only the switch handler touches the two flags of [ums.c]:
    dispatching an event of any other subsystem leaves [host_connected] and
    [ums_enabled] as they were. *)
Theorem only_switch_changes_flags (event : uevent) (st : state) :
  subsystem event <> Str "switch" ->
  host_connected (snd (dispatch_uevent event st)) = host_connected st
  /\ ums_enabled (snd (dispatch_uevent event st)) = ums_enabled st.
Proof.
  intros Hs. rewrite dispatch_uevent_state.
  destruct (subsystem event) as [|sub|]; try (split; reflexivity).
  destruct (streq "switch" sub) eqn:E.
  { apply streq_eq in E. subst sub. congruence. }
  destruct (streq "battery" sub); [split; reflexivity|].
  destruct (streq "mmc" sub).
  { destruct (handle_mmc_event_frame event st) as (Hh & Hu & _). auto. }
  destruct (streq "block" sub); [|split; reflexivity].
  destruct (handle_block_event_frame event st) as (Hh & Hu & _). auto.
Qed.

(** X17: a switch event for any switch other than "usb_mass_storage" is
    ignored: 0 is returned and nothing changes, SWITCH_STATE being present
    or not. *)
Theorem switch_ignores_other_switches (event : uevent) (st : state)
    (name : string) :
  get_uevent_param event "SWITCH_NAME" = Str name ->
  name <> "usb_mass_storage" ->
  handle_switch_event event st = (Val 0, st).
Proof.
  intros Hn Hne. rewrite handle_switch_event_cases, Hn.
  rewrite (streq_neq _ _ Hne). reflexivity.
Qed.

(** X18: the switch "usb_mass_storage" going "online" sets
    [host_connected], leaves [ums_enabled] as it was and sends the one
    message VOLD_EVT_UMS_CONNECTED. *)
Theorem switch_online_connects (event : uevent) (st : state) :
  get_uevent_param event "SWITCH_NAME" = Str "usb_mass_storage" ->
  get_uevent_param event "SWITCH_STATE" = Str "online" ->
  fst (handle_switch_event event st) = Val 0
  /\ host_connected (snd (handle_switch_event event st)) = true
  /\ ums_enabled (snd (handle_switch_event event st)) = ums_enabled st
  /\ since st (snd (handle_switch_event event st))
     = [Send_msg VOLD_EVT_UMS_CONNECTED
          (fst (send_msg VOLD_EVT_UMS_CONNECTED (ext st)))].
Proof.
  intros Hn Hs. rewrite handle_switch_event_cases, Hn, Hs. cbn [streq].
  replace (streq "usb_mass_storage" "usb_mass_storage") with true
    by reflexivity.
  replace (streq "online" "online") with true by reflexivity.
  unfold ums_hostconnected_set. unfold_monad. cbn.
  destruct (send_msg VOLD_EVT_UMS_CONNECTED (ext st)) as [rc w]. cbn.
  repeat split. trace.
Qed.

(** X19: no handler reports success with a positive code: whatever
    [dispatch_uevent] returns is 0 or negative, also when it passes on the
    code of [media_add_blkdev] or [volmgr_consider_disk]. *)
Theorem dispatch_never_positive (event : uevent) (st : state) (rc : Z) :
  fst (dispatch_uevent event st) = Val rc -> rc <= 0.
Proof.
  rewrite dispatch_uevent_cases.
  destruct (subsystem event) as [|sub|]; try discriminate.
  destruct (streq "switch" sub).
  { rewrite handle_switch_event_cases.
    destruct (get_uevent_param event "SWITCH_NAME") as [|name|];
      try discriminate.
    destruct (streq name "usb_mass_storage");
      [|intros E; inversion E; lia].
    destruct (get_uevent_param event "SWITCH_STATE"); try discriminate.
    intros E; inversion E; lia. }
  destruct (streq "battery" sub); [intros E; inversion E; lia|].
  destruct (streq "mmc" sub);
    [apply (proj2 (proj2 (handle_mmc_event_frame event st)))|].
  destruct (streq "block" sub); [|intros E; inversion E; lia].
  destruct (handle_block_event_frame event st) as (_ & _ & H & _). apply H.
Qed.

(** X20: [ums_send_status] reports the two flags without changing them:
    it sends ENABLED or DISABLED after [ums_enabled], and returns the code
    of that [send_msg] at once if it is negative; otherwise it sends CONNECTED
    or DISCONNECTED after [host_connected] and returns the code of the
    second [send_msg]. *)
Theorem ums_send_status_reports_flags (st : state) :
  let m1 := if ums_enabled st then VOLD_EVT_UMS_ENABLED
            else VOLD_EVT_UMS_DISABLED in
  let m2 := if host_connected st then VOLD_EVT_UMS_CONNECTED
            else VOLD_EVT_UMS_DISCONNECTED in
  let s1 := send_msg m1 (ext st) in
  let s2 := send_msg m2 (snd s1) in
  host_connected (snd (ums_send_status st)) = host_connected st
  /\ ums_enabled (snd (ums_send_status st)) = ums_enabled st
  /\ (if fst s1 <? 0
      then fst (ums_send_status st) = Val (fst s1)
           /\ since st (snd (ums_send_status st)) = [Send_msg m1 (fst s1)]
      else fst (ums_send_status st) = Val (fst s2)
           /\ since st (snd (ums_send_status st))
              = [Send_msg m1 (fst s1); Send_msg m2 (fst s2)]).
Proof.
  cbv zeta. unfold ums_send_status, ums_enabled_get, ums_hostconnected_get.
  unfold_monad. cbn.
  destruct (send_msg (if ums_enabled st then VOLD_EVT_UMS_ENABLED
                      else VOLD_EVT_UMS_DISABLED) (ext st)) as [rc w].
  cbn. destruct (rc <? 0); cbn.
  - repeat split. trace.
  - destruct (send_msg (if host_connected st then VOLD_EVT_UMS_CONNECTED
                        else VOLD_EVT_UMS_DISCONNECTED) w) as [rc' w'].
    cbn. repeat split. trace.
Qed.

End HandlerDetails.

(** ** The lun file of [ums.c] *)

Section LunFileProofs.

Context {L : Libc}.



(** X23: a [lun_syspath] of more than 244 characters does not fit
    [filename]: both functions overrun the array in [sprintf], before any
    system call. *)
Theorem lun_syspath_overruns_filename (dev_fspath lun_syspath : string)
    (fs : files) :
  (244 < String.length lun_syspath)%nat ->
  ums_enable dev_fspath lun_syspath fs = (Fault, fs, [])
  /\ ums_disable lun_syspath fs = (Fault, fs, []).
Proof.
  intros Hlen. apply Nat.ltb_lt in Hlen.
  unfold ums_enable, ums_disable, lun_filename. rewrite Hlen.
  split; reflexivity.
Qed.

End LunFileProofs.

(** ** The further properties in the modelled world *)

Lemma dispatch_routes_by_subsystem_witness :
  dispatch_uevent (disk_ev action_add) inserted
  = handle_block_event (disk_ev action_add) inserted.
Proof.
  exact (proj1 (proj2 (proj2 (@dispatch_routes_by_subsystem collaborators
                                (disk_ev action_add) inserted))) eq_refl).
Defined.

Lemma dispatch_unknown_subsystem_witness :
  dispatch_uevent input_add inserted = (Val 0, inserted).
Proof.
  apply (@dispatch_unknown_subsystem collaborators input_add inserted "input").
  - reflexivity.
  - intros [H|[H|[H|[H|[H|[H|[]]]]]]]; discriminate H.
Defined.

Lemma message_without_subsystem_faults_witness :
  process_uevent_message
    (message ["add@/devices/platform/mmc0"; "ACTION=add"; "MMC_TYPE=SD"])
    start = (Fault, start)
  /\ process_uevent_message EmptyString start = (Fault, start).
Proof.
  apply (@message_without_subsystem_faults collaborators
           "add" "/devices/platform/mmc0" ["ACTION=add"; "MMC_TYPE=SD"] start).
  - reflexivity.
  - reflexivity.
  - reflexivity.
  - repeat constructor.
  - intros f [<-|[<-|[]]]; reflexivity.
Defined.

Lemma simulate_rejects_unknown_action_witness :
  simulate_uevent "mmc" card "insert" ["MMC_TYPE=SD"] start = (Val (-1), start).
Proof.
  apply (@simulate_rejects_unknown_action collaborators). reflexivity.
Defined.

Lemma process_matches_simulate_witness :
  process_uevent_message
    (message (("add" ++ String "@" card)
              :: ("ACTION=" ++ "add")
              :: ("SUBSYSTEM=" ++ "mmc") :: ["MMC_TYPE=SD"; "MMC_NAME=SD02G"]))
    start
  = simulate_uevent "mmc" card "add" ["MMC_TYPE=SD"; "MMC_NAME=SD02G"] start.
Proof.
  apply (@process_matches_simulate collaborators).
  - reflexivity.
  - reflexivity.
  - reflexivity.
  - reflexivity.
  - reflexivity.
  - repeat constructor.
  - reflexivity.
  - repeat constructor.
  - unfold UEVENT_PARAMS_MAX. simpl. lia.
Defined.

Lemma mmc_add_ignores_other_types_witness :
  handle_mmc_event sdio_add start = (Val 0, start).
Proof.
  apply (@mmc_add_ignores_other_types collaborators sdio_add start "SDIO").
  - reflexivity.
  - reflexivity.
  - discriminate.
  - discriminate.
Defined.

Lemma mmc_add_creates_media_witness :
  fst (handle_mmc_event mmc_add start) = Val 0
  /\ lookup_by_path (Str card) false (ext (snd (handle_mmc_event mmc_add start)))
     = Some card.
Proof.
  destruct (@mmc_add_creates_media collaborators mmc_add start "SD"
              eq_refl eq_refl (or_introl eq_refl)) as (H1 & H2 & _).
  split; [exact H1|]. rewrite H2. reflexivity.
Defined.

Lemma mmc_remove_destroys_media_witness :
  fst (handle_mmc_event mmc_remove inserted) = Val 0
  /\ medias (ext (snd (handle_mmc_event mmc_remove inserted))) = [].
Proof.
  destruct (@mmc_remove_destroys_media collaborators mmc_remove inserted card
              eq_refl eq_refl) as (H1 & H2 & _).
  split; [exact H1|]. rewrite H2. reflexivity.
Defined.

Lemma block_add_creates_unknown_device_witness :
  fst (handle_block_event (disk_ev action_add) inserted) = Val 0.
Proof.
  exact (proj1 (@block_add_creates_unknown_device collaborators
                  (disk_ev action_add) inserted "disk" "179" "0" 2 card
                  eq_refl eq_refl eq_refl eq_refl eq_refl eq_refl eq_refl)).
Defined.

Lemma block_add_updates_registered_device_witness :
  exists rest,
    since with_disk
      (snd (handle_block_event (part_ev action_add "1") with_disk))
    = ([Truncate_sysfs_path (C := collaborators)
          (path (part_ev action_add "1")) 3 card;
        Media_lookup_by_path (C := collaborators) (Str card) false (Some card);
        Blkdev_lookup_by_devno (C := collaborators) 179 0 (Some (179, 0));
        Blkdev_lookup_by_devno (C := collaborators) 179 1 (Some (179, 1));
        Blkdev_devpath_set (C := collaborators) (179, 1)
          (path (part_ev action_add "1"));
        Media_add_blkdev (C := collaborators) card (179, 1) 0] ++ rest)%list.
Proof.
  destruct (@block_add_updates_registered_device collaborators
              (part_ev action_add "1") with_disk "partition" "179" "1" 3
              card (179, 1)
              eq_refl eq_refl eq_refl eq_refl eq_refl eq_refl eq_refl)
    as (rest & H & _).
  exists rest. exact H.
Defined.


Lemma only_switch_changes_flags_witness :
  host_connected (snd (dispatch_uevent mmc_add sharing)) = true
  /\ ums_enabled (snd (dispatch_uevent mmc_add sharing)) = true.
Proof.
  apply (@only_switch_changes_flags collaborators mmc_add sharing).
  discriminate.
Defined.

Lemma switch_ignores_other_switches_witness :
  handle_switch_event h2w_switch sharing = (Val 0, sharing).
Proof.
  apply (@switch_ignores_other_switches collaborators h2w_switch sharing "h2w").
  - reflexivity.
  - discriminate.
Defined.

Lemma switch_online_connects_witness :
  fst (handle_switch_event usb_online start) = Val 0
  /\ host_connected (snd (handle_switch_event usb_online start)) = true.
Proof.
  destruct (@switch_online_connects collaborators usb_online start
              eq_refl eq_refl) as (H1 & H2 & _).
  split; assumption.
Defined.

Lemma dispatch_never_positive_witness :
  fst (dispatch_uevent cdrom_remove start) = Val (-22) /\ -22 <= 0.
Proof.
  split; [reflexivity|].
  exact (@dispatch_never_positive collaborators cdrom_remove start (-22)
           eq_refl).
Defined.



Lemma lun_syspath_overruns_filename_witness :
  ums_enable (L := ExampleFiles.libc) "/dev/block/vold/179:0"
    (String.concat "/" (repeat "0123456789" 25)) ExampleFiles.gadget
  = (Fault, ExampleFiles.gadget, []).
Proof.
  apply (@lun_syspath_overruns_filename ExampleFiles.libc).
  vm_compute. lia.
Defined.

(** ** Further properties of [get_uevent_param] *)

(** X24: [get_uevent_param] matches by prefix and steps over one
    character without looking at it: when the first string of [param] that
    starts with the name continues with any character [c] and then [v], the
    result is [v], whether [c] is '=' or not. *)
Theorem lookup_matches_by_prefix (event : uevent) (name v : string) (c : ascii)
    (before : list string) (after : list (option string)) :
  param event
  = (map Some before ++ Some (name ++ String c v)%string :: after)%list ->
  (List.length before < UEVENT_PARAMS_MAX)%nat ->
  (forall p, In p before -> starts_with name p = false) ->
  get_uevent_param event name = Str v.
Proof.
  intros E Hlen Hnot. unfold get_uevent_param. rewrite E, firstn_app.
  rewrite length_map.
  rewrite firstn_all2 by (rewrite length_map; lia).
  destruct (UEVENT_PARAMS_MAX - List.length before)%nat as [|k] eqn:Ek; [lia|].
  cbn [firstn]. rewrite (get_param_from_skip _ _ _ Hnot).
  apply get_param_from_found.
Qed.

Lemma lookup_matches_by_prefix_witness :
  get_uevent_param (ev "block" action_add "/block/sda"
                      ["DEVTYPE=disk"; "MAJORITY=1"; "MAJOR=8"]) "MAJOR"
  = Str "TY=1".
Proof.
  apply (lookup_matches_by_prefix _ "MAJOR" "TY=1" "I" ["DEVTYPE=disk"]
           (skipn 2 (copy_params ["DEVTYPE=disk"; "MAJORITY=1"; "MAJOR=8"]))).
  - reflexivity.
  - unfold UEVENT_PARAMS_MAX. simpl. lia.
  - intros p [<-|[]]. reflexivity.
Defined.

(** X25: when the first string of [param] that starts with the name is
    the bare name, without '=' or value, [get_uevent_param] returns a
    pointer beyond the string's terminator, one past its allocation. *)
Theorem lookup_of_bare_key_is_past_end (event : uevent) (name : string)
    (before : list string) (after : list (option string)) :
  param event = (map Some before ++ Some name :: after)%list ->
  (List.length before < UEVENT_PARAMS_MAX)%nat ->
  (forall p, In p before -> starts_with name p = false) ->
  get_uevent_param event name = PastEnd.
Proof.
  intros E Hlen Hnot. unfold get_uevent_param. rewrite E, firstn_app.
  rewrite length_map.
  rewrite firstn_all2 by (rewrite length_map; lia).
  destruct (UEVENT_PARAMS_MAX - List.length before)%nat as [|k] eqn:Ek; [lia|].
  cbn [firstn]. rewrite (get_param_from_skip _ _ _ Hnot).
  apply get_param_from_bare.
Qed.

Lemma lookup_of_bare_key_is_past_end_witness :
  get_uevent_param (ev "block" action_add "/block/sda"
                      ["MAJOR=8"; "DEVTYPE"; "DEVTYPE=disk"]) "DEVTYPE"
  = PastEnd.
Proof.
  apply (lookup_of_bare_key_is_past_end _ "DEVTYPE" ["MAJOR=8"]
           (skipn 2 (copy_params ["MAJOR=8"; "DEVTYPE"; "DEVTYPE=disk"]))).
  - reflexivity.
  - unfold UEVENT_PARAMS_MAX. simpl. lia.
  - intros p [<-|[]]. reflexivity.
Defined.

(** ** The enumeration of a disk in the modelled world *)

Section Enumeration.

Ltac calls_eq :=
  cbn [calls log set_ext set_ums_enabled set_host_connected fst snd];
  repeat rewrite <- app_assoc; reflexivity.

Ltac trace := apply since_app; calls_eq.


(** *** Paths and parameters of the announcements *)







(** *** The registry, step by step *)








(** *** One announcement *)














(** *** Sequences of announcements *)











End Enumeration.


